(** * plot-energy: the interpolation core of [main.py]

    The program reads cumulative meter readings, interpolates them to a
    reading per day, derives daily usage and an annual estimate, and filters
    a monthly weather series to the dates the readings cover.  This file
    embeds the [Data] class of [main.py] (with [interpolate] and the
    module-level [try]/[except] around the annual figures) and proves the
    properties of its specification.

    Modelling choices.
    - A [datetime.date] is its day number (proleptic Gregorian ordinal), an
      integer from 1 ([date.min], 0001-01-01) to 3652059 ([date.max],
      9999-12-31).  Adding a [timedelta] adds days, and raises
      [OverflowError] when the result leaves that range, as in Python.
    - [ts] turns a date into the POSIX timestamp of its local midnight.  It
      depends on the time zone of the machine and it can raise (it raises
      [ValueError] at [date.min]), so it is a parameter of the development
      that returns a timestamp or an exception.  A theorem that needs more
      of it says on which dates: there [ts] must return, and return later
      timestamps for later dates.
    - A Python exception is an error value; every function that can raise
      returns a [result].
    - A Python [int] is an integer of [Z].  A Python [float] is an IEEE 754
      binary64 number: the instance [binary64] of the class [Arith] is what
      CPython computes.  The second instance, [rational], is the same
      program over exact arithmetic (no rounding, no overflow); it is used
      only to say what a formula amounts to before rounding. *)

From Stdlib Require Import ZArith List Sorted Bool Lia ZifyBool Lqa QArith Floats.
Import ListNotations.
Local Open Scope Z_scope.

(** ** Exceptions *)

Inductive exn : Set :=
| AssertionError
| IndexError
| StopIteration
| ZeroDivisionError
| OverflowError
| ValueError.

Inductive result (T : Type) : Type :=
| Ok (v : T)
| Err (e : exn).

Arguments Ok {T} v.
Arguments Err {T} e.

Definition bind {T U : Type} (c : result T) (k : T -> result U) : result U :=
  match c with
  | Ok v => k v
  | Err e => Err e
  end.

Declare Scope py_scope.
Delimit Scope py_scope with py.
Notation "x <- c ;; k" := (bind c (fun x => k))
  (at level 61, c at next level, right associativity) : py_scope.
Notation "' pat <- c ;; k" := (bind c (fun x => match x with pat => k end))
  (at level 61, pat pattern, c at next level, right associativity) : py_scope.
Local Open Scope py_scope.

(** [assert cond]: nothing happens when [cond] holds. *)
Definition assert (cond : bool) : result unit :=
  if cond then Ok tt else Err AssertionError.

(** [l[i]] on a list, with Python's negative indices. *)
Definition getitem {T : Type} (l : list T) (i : Z) : result T :=
  let n := Z.of_nat (length l) in
  let j := if i <? 0 then i + n else i in
  if (0 <=? j) && (j <? n)
  then match nth_error l (Z.to_nat j) with
       | Some x => Ok x
       | None => Err IndexError
       end
  else Err IndexError.

(** A loop that yields [f x] for each [x], collected by [as_list]; the first
    exception ends it. *)
Fixpoint for_yield {T U : Type} (f : T -> result U) (l : list T)
  : result (list U) :=
  match l with
  | [] => Ok []
  | x :: l' => v <- f x ;; vs <- for_yield f l' ;; Ok (v :: vs)
  end.

(** ** Arithmetic *)

(** The float operations of the program.  [of_int] is the conversion of an
    [int] operand that meets a [float] operand, [div_int] is [a / b] on two
    [int]s with [b] not zero; both give [None] where Python raises
    [OverflowError]. *)
Class Arith : Type := {
  F : Type;
  of_int : Z -> option F;
  div_int : Z -> Z -> option F;
  fadd : F -> F -> F;
  fsub : F -> F -> F;
  fmul : F -> F -> F
}.

Module Binary64.

(** An integer as a float with an unbounded mantissa, for [SFdiv]. *)
Definition big (z : Z) : spec_float :=
  match z with
  | Z0 => S754_zero false
  | Zpos p => S754_finite false p 0
  | Zneg p => S754_finite true p 0
  end.

Definition finite (f : float) : option float :=
  if is_infinity f then None else Some f.

(** [float(z)]: the nearest double, ties to even. *)
Definition float_of_int (z : Z) : float :=
  SF2Prim (binary_normalize prec emax z 0 false).

Definition int_to_float (z : Z) : option float := finite (float_of_int z).

(** [f == z] on a [float] and an [int]: Python compares the two numbers
    exactly. *)
Definition eq_int (f : float) (z : Z) : bool :=
  match Prim2SF f with
  | S754_zero _ => z =? 0
  | S754_finite s m e =>
      if 0 <=? e then cond_Zopp s (Zpos m * 2 ^ e) =? z
      else cond_Zopp s (Zpos m) =? z * 2 ^ (- e)
  | _ => false
  end.

(** [a / b] on integers is the correctly rounded quotient. *)
Definition int_div (a b : Z) : option float :=
  finite (SF2Prim (SFdiv prec emax (big a) (big b))).

(** A double in normal form: 53 bits of mantissa, exponent in range. *)
Definition normal (m : positive) (e : Z) : Prop :=
  Zpos (digits2_pos m) = 53 /\ -1074 <= e <= 971.

(** The double of a positive integer below 2^53: the integer, shifted to
    53 bits. *)
Definition canon (z : positive) : spec_float :=
  S754_finite false
    (Pos.shiftl_nat z (Z.to_nat (53 - Zpos (digits2_pos z))))
    (Zpos (digits2_pos z) - 53).

End Binary64.

Definition binary64 : Arith := {|
  F := float;
  of_int := Binary64.int_to_float;
  div_int := Binary64.int_div;
  fadd := PrimFloat.add;
  fsub := PrimFloat.sub;
  fmul := PrimFloat.mul
|}.

Definition rational : Arith := {|
  F := Q;
  of_int := fun z => Some (inject_Z z);
  div_int := fun a b => Some (inject_Z a / inject_Z b)%Q;
  fadd := Qplus;
  fsub := Qminus;
  fmul := Qmult
|}.
(** ** Dates *)

(** A [datetime.date], as its ordinal: [date.min] is day 1 and [date.max]
    is day 3652059. *)
Definition date : Set := Z.

Definition date_min : date := 1.
Definition date_max : date := 3652059.

(** [day + timedelta(days=n)]: the date [n] days later, and
    [OverflowError] when there is no such date. *)
Definition add_days (day : date) (n : Z) : result date :=
  if (date_min <=? day + n) && (day + n <=? date_max) then Ok (day + n)
  else Err OverflowError.

Section Program.

Context {A : Arith}.

(** A Python number: the electricity field holds an [int], the gas field
    and every interpolated value a [float]. *)
Inductive num : Type :=
| Int (z : Z)
| Float (f : F).

Definition to_float (x : num) : result F :=
  match x with
  | Float f => Ok f
  | Int z => match of_int z with
             | Some f => Ok f
             | None => Err OverflowError
             end
  end.

(** [x + y], [x - y], [x * y]: integer arithmetic on two [int]s, float
    arithmetic after conversion otherwise. *)
Definition binop (iop : Z -> Z -> Z) (fop : F -> F -> F) (x y : num)
  : result num :=
  match x, y with
  | Int a, Int b => Ok (Int (iop a b))
  | _, _ => a <- to_float x ;; b <- to_float y ;; Ok (Float (fop a b))
  end.

Definition add := binop Z.add fadd.
Definition sub := binop Z.sub fsub.
Definition mul := binop Z.mul fmul.

(** [a / b] on two [int]s. *)
Definition truediv (a b : Z) : result F :=
  if b =? 0 then Err ZeroDivisionError
  else match div_int a b with
       | Some f => Ok f
       | None => Err OverflowError
       end.

(** [interpolate], lines 15-17. *)
Definition interpolate (first second current : Z)
  (data_first data_second : num) : result num :=
  progress <- truediv (current - first) (second - first) ;;
  delta <- sub data_second data_first ;;
  share <- mul delta (Float progress) ;;
  add data_first share.

(** [ts], lines 20-21: the timestamp of the local midnight of a date, or
    the exception [datetime.timestamp] raises for it. *)
Variable ts : date -> result Z.

Record Reading : Type := {
  r_at : date;
  electricity : Z;
  gas : F
}.

Inductive Energy : Set := Electricity | Gas.

(** [Reading.get], [getattr(self, energy)]. *)
Definition get (r : Reading) (energy : Energy) : num :=
  match energy with
  | Electricity => Int (electricity r)
  | Gas => Float (gas r)
  end.

Record Weather : Type := {
  w_at : date;
  air_mean : F
}.

Record Data : Type := {
  readings : list Reading;
  weathers : list Weather
}.

(** [self.readings[0].at <= at <= self.readings[-1].at], and with [<] on
    the left when [strict]: the right comparison is evaluated only when
    the left one holds. *)
Definition covers (strict : bool) (d : Data) (at_ : date) : result bool :=
  r0 <- getitem (readings d) 0 ;;
  if (if strict then r_at r0 <? at_ else r_at r0 <=? at_)
  then rl <- getitem (readings d) (-1) ;; Ok (at_ <=? r_at rl)
  else Ok false.

(** [next(reading for reading in self.readings if at <= reading.at)] and
    [self.readings.index(second_reading)], lines 58-59.  The generator
    stops at the first reading that is not before [at]; [list.index]
    returns the first position that holds this object or a reading equal
    to it.  An equal reading has the same date and passes the same test,
    so that position is the one the generator stopped at: one search
    returns the position, counted from [i], with the reading. *)
Fixpoint next_reading (at_ : date) (i : Z) (l : list Reading)
  : result (Z * Reading) :=
  match l with
  | [] => Err StopIteration
  | r :: l' => if at_ <=? r_at r then Ok (i, r)
               else next_reading at_ (i + 1) l'
  end.

(** [Data.reading], lines 52-67.  The arguments of [interpolate] are
    evaluated from left to right: the three timestamps, then the two
    values. *)
Definition reading (d : Data) (at_ : date) (energy : Energy) : result num :=
  inside <- covers false d at_ ;;
  _ <- assert inside ;;
  r0 <- getitem (readings d) 0 ;;
  if at_ =? r_at r0 then Ok (get r0 energy)
  else
    ' (i, second_reading) <- next_reading at_ 0 (readings d) ;;
    first_reading <- getitem (readings d) (i - 1) ;;
    first <- ts (r_at first_reading) ;;
    second <- ts (r_at second_reading) ;;
    current <- ts at_ ;;
    interpolate first second current
                (get first_reading energy) (get second_reading energy).

(** [Data.usage], lines 69-71: the lookup at [at], then the day before
    [at], then the lookup at that day. *)
Definition usage (d : Data) (at_ : date) (energy : Energy) : result num :=
  inside <- covers true d at_ ;;
  _ <- assert inside ;;
  today <- reading d at_ energy ;;
  day_before <- add_days at_ (-1) ;;
  yesterday <- reading d day_before energy ;;
  sub today yesterday.

Definition electricity_reading (d : Data) (at_ : date) : result num :=
  reading d at_ Electricity.

Definition electricity_usage (d : Data) (at_ : date) : result num :=
  usage d at_ Electricity.

Definition gas_reading (d : Data) (at_ : date) : result num :=
  reading d at_ Gas.

Definition gas_usage (d : Data) (at_ : date) : result num :=
  usage d at_ Gas.

(** The [while day <= last] loop of [Data.dates]: each round yields [day]
    and moves to the next day, which raises after [date.max]; [as_list]
    collects the days, and an exception ends the collection.  [fuel]
    bounds the number of rounds. *)
Fixpoint dates_loop (fuel : nat) (day last : date) : result (list date) :=
  match fuel with
  | O => Ok []
  | S fuel' =>
      if day <=? last
      then next <- add_days day 1 ;;
           rest <- dates_loop fuel' next last ;;
           Ok (day :: rest)
      else Ok []
  end.

(** [Data.dates], lines 105-111.  The loop runs [last - first] rounds when
    that is positive and none otherwise, which is the fuel it gets. *)
Definition dates (d : Data) : result (list date) :=
  r0 <- getitem (readings d) 0 ;;
  day <- add_days (r_at r0) 1 ;;
  rl <- getitem (readings d) (-1) ;;
  dates_loop (Z.to_nat (r_at rl - r_at r0)) day (r_at rl).

(** [Data.usage_dates], lines 113-115: [self.dates[1:]]. *)
Definition usage_dates (d : Data) : result (list date) :=
  ds <- dates d ;; Ok (tl ds).

(** [Data.average_annual_electricity_consumption], lines 85-93. *)
Definition average_annual_electricity_consumption (d : Data) : result num :=
  ds <- usage_dates d ;;
  start <- getitem ds 0 ;;
  end_ <- add_days start 365 ;;
  electricity_start <- electricity_reading d start ;;
  electricity_end <- electricity_reading d end_ ;;
  sub electricity_end electricity_start.

(** [Data.average_annual_gas_consumption], lines 95-103. *)
Definition average_annual_gas_consumption (d : Data) : result num :=
  ds <- usage_dates d ;;
  start <- getitem ds 0 ;;
  end_ <- add_days start 365 ;;
  gas_start <- gas_reading d start ;;
  gas_end <- gas_reading d end_ ;;
  sub gas_end gas_start.

(** [Data.electricity_usages] and [Data.gas_usages], lines 117-127. *)
Definition electricity_usages (d : Data) : result (list num) :=
  ds <- usage_dates d ;; for_yield (electricity_usage d) ds.

Definition gas_usages (d : Data) : result (list num) :=
  ds <- usage_dates d ;; for_yield (gas_usage d) ds.

(** The loop of [Data.temperature_dates] and [Data.air_means], lines
    129-141: the bounds are read from the readings at every round, and a
    weather inside them yields [f weather]. *)
Fixpoint weather_loop {T : Type} (f : Weather -> T) (d : Data)
  (ws : list Weather) : result (list T) :=
  match ws with
  | [] => Ok []
  | weather :: ws' =>
      inside <- covers false d (w_at weather) ;;
      rest <- weather_loop f d ws' ;;
      Ok (if inside then f weather :: rest else rest)
  end.

Definition temperature_dates (d : Data) : result (list date) :=
  weather_loop w_at d (weathers d).

Definition air_means (d : Data) : result (list F) :=
  weather_loop air_mean d (weathers d).

(** What lines 170-174 print.  The number formatting of the two figures is
    not modelled. *)
Inductive line : Type :=
| AnnualElectricity (v : num)
| AnnualGas (v : num)
| InsufficientData.

(** The module-level [try]/[except AssertionError], lines 170-174: the
    lines printed, and the exception that leaves the block if one does. *)
Definition annual_report (d : Data) : list line * option exn :=
  match average_annual_electricity_consumption d with
  | Ok e =>
      match average_annual_gas_consumption d with
      | Ok g => ([AnnualElectricity e; AnnualGas g], None)
      | Err AssertionError => ([AnnualElectricity e; InsufficientData], None)
      | Err x => ([AnnualElectricity e], Some x)
      end
  | Err AssertionError => ([InsufficientData], None)
  | Err x => ([], Some x)
  end.

End Program.

Arguments num A : clear implicits.
Arguments Reading A : clear implicits.
Arguments Weather A : clear implicits.
Arguments Data A : clear implicits.

(** ** The store invariants *)

(** The dates of the calendar. *)
Definition calendar (day : date) : Prop := date_min <= day <= date_max.

Section Invariants.

Context {A : Arith}.

(** Strictly ascending dates, as a check on neighbours. *)
Fixpoint ascending (l : list (Reading A)) : bool :=
  match l with
  | r :: ((r' :: _) as l') => (r_at r <? r_at r') && ascending l'
  | _ => true
  end.

(** Every reading is dated from [lo] to [hi]. *)
Definition within (lo hi : date) (l : list (Reading A)) : bool :=
  forallb (fun r => (lo <=? r_at r) && (r_at r <=? hi)) l.

(** The invariants of the specification: at least one reading, dates
    strictly ascending (hence unique); and [at] holds a date of the
    calendar, which is what its type says. *)
Definition store_invariant (d : Data A) : Prop :=
  readings d <> []
  /\ ascending (readings d) = true
  /\ within date_min date_max (readings d) = true.

(** Two readings that follow each other in the store. *)
Definition consecutive (d : Data A) (p s : Reading A) : Prop :=
  exists l1 l2, readings d = l1 ++ p :: s :: l2.

End Invariants.

(** ** Definitions for the statements *)

(** [n] days in a row from [start]: what the date loop is shown to yield. *)
Fixpoint days (start : Z) (n : nat) : list Z :=
  match n with
  | O => []
  | S n' => start :: days (start + 1) n'
  end.

(** A timestamp function the lookup can work with on the dates from [lo]
    to [hi]: it returns on each of them, and later dates have later
    midnights. *)
Definition increasing (ts : date -> result Z) (lo hi : date) : Prop :=
  (forall a, lo <= a <= hi -> exists t, ts a = Ok t)
  /\ (forall a b ta tb, lo <= a -> a < b -> b <= hi ->
        ts a = Ok ta -> ts b = Ok tb -> ta < tb).

(** The call of [interpolate] in lines 61-67, on a first reading [p], a
    second reading [s] and the date [at_]. *)
Definition interpolated {A : Arith} (ts : date -> result Z)
  (p s : Reading A) (at_ : date) (energy : Energy) : result (num A) :=
  first <- ts (r_at p) ;;
  second <- ts (r_at s) ;;
  current <- ts at_ ;;
  interpolate first second current (get p energy) (get s energy).

(** The annual figure of a field: the property of [Data] for that field. *)
Definition average_annual_consumption {A : Arith} (ts : date -> result Z)
  (d : Data A) (energy : Energy) : result (num A) :=
  match energy with
  | Electricity => average_annual_electricity_consumption ts d
  | Gas => average_annual_gas_consumption ts d
  end.

(** The usage series of a field: the property of [Data] for that field. *)
Definition usages {A : Arith} (ts : date -> result Z) (d : Data A)
  (energy : Energy) : result (list (num A)) :=
  match energy with
  | Electricity => electricity_usages ts d
  | Gas => gas_usages ts d
  end.

(** The rational a number of the exact arithmetic stands for. *)
Definition value (x : num rational) : Q :=
  match x with
  | Int z => inject_Z z
  | Float q => q
  end.

(** ** Example stores *)

Module Examples.

(** Midnight in UTC: 1970-01-01 is day 719163.  At [date.min],
    [datetime.timestamp] raises [ValueError]. *)
Definition ts_utc (day : date) : result Z :=
  if day <=? date_min then Err ValueError
  else Ok ((day - 719163) * 86400).

(** Midnight in Pacific/Apia around the end of 2011, as CPython computes
    it for the dates from 2011-09-25 to 2012-04-01.  The zone moved across
    the date line at the end of 2011-12-29, from UTC-10 to UTC+14:
    2011-12-30 (day 734501) did not happen there, and the timestamp
    returned for its midnight is the one of the midnight of 2011-12-31. *)
Definition ts_apia (day : date) : result Z :=
  if day <=? date_min then Err ValueError
  else if day <? 734501 then Ok ((day - 719163) * 86400 + 36000)
  else if day =? 734501 then Ok 1325239200
  else Ok ((day - 719163) * 86400 - 50400).

Definition reading64 (day : date) (e : Z) (g : float) : Reading binary64 :=
  @Build_Reading binary64 day e g.

Definition weather64 (day : date) (t : float) : Weather binary64 :=
  @Build_Weather binary64 day t.

Definition readingQ (day : date) (e : Z) (g : Q) : Reading rational :=
  @Build_Reading rational day e g.

(** The store of the specification: 2020-01-01 and 2020-02-01, with
    weather on the 15th of December 2019 to March 2020. *)
Definition jan_feb : Data binary64 :=
  @Build_Data binary64
    [reading64 737425 1000 100; reading64 737456 1100 120]
    [weather64 737408 5.5; weather64 737439 6.5;
     weather64 737470 4; weather64 737499 9.5].

(** The same two readings in exact arithmetic. *)
Definition jan_feb_exact : Data rational :=
  @Build_Data rational
    [readingQ 737425 1000 100; readingQ 737456 1100 120] [].

(** Two months, 2020-01-01 to 2020-03-01: sixty days. *)
Definition sixty_days : Data binary64 :=
  @Build_Data binary64
    [reading64 737425 1000 100; reading64 737485 1300 160] [].

(** One reading, and two readings on neighbouring days. *)
Definition one_reading : Data binary64 :=
  @Build_Data binary64 [reading64 737425 1000 100] [].

Definition two_days : Data binary64 :=
  @Build_Data binary64
    [reading64 737425 1000 100; reading64 737426 1003 101] [].

(** Three readings over 500 days, the consumption rising after day 100. *)
Definition two_rates : Data binary64 :=
  @Build_Data binary64
    [reading64 737425 0 0; reading64 737525 100 10;
     reading64 737925 1000 100] [].

(** Gas readings 0.3 and 0.9 (the doubles nearest to them). *)
Definition tenths : Data binary64 :=
  @Build_Data binary64
    [reading64 737425 1000 0x1.3333333333333p-2;
     reading64 737456 1100 0x1.ccccccccccccdp-1] [].

(** Gas readings of 2 and 9 cubic metres, as the program stores them:
    multiplied by [GAS_M3_TO_KWH = 11.3627]. *)
Definition cubic_metres : Data binary64 :=
  @Build_Data binary64
    [reading64 737425 1000 0x1.6b9b3d07c84b6p+4;
     reading64 737456 1100 0x1.990ea4a8c154dp+6] [].

(** Gas readings -1.5e308 and 1.5e308. *)
Definition huge : Data binary64 :=
  @Build_Data binary64
    [reading64 737425 0 (-0x1.ab36d48e1acf0p+1023);
     reading64 737456 100 0x1.ab36d48e1acf0p+1023] [].

(** Readings at the end of the calendar: 9999-12-01 and 9999-12-31, the
    last date there is. *)
Definition december_9999 : Data binary64 :=
  @Build_Data binary64
    [reading64 3652029 1000 100; reading64 3652059 1100 120] [].

(** One reading on 9999-12-31. *)
Definition last_day : Data binary64 :=
  @Build_Data binary64 [reading64 3652059 1000 100] [].

(** A hundred days in the last year of the calendar, 9999-07-25 to
    9999-11-02: a year after the first reading there is no date. *)
Definition summer_9999 : Data binary64 :=
  @Build_Data binary64
    [reading64 3651900 1000 100; reading64 3652000 1300 160] [].

(** Readings on 2011-12-30 and 2011-12-31. *)
Definition end_of_2011 : Data binary64 :=
  @Build_Data binary64
    [reading64 734501 1000 100; reading64 734502 1003 101] [].

(** No reading at all, with and without weather. *)
Definition no_readings : Data binary64 :=
  @Build_Data binary64 [] [weather64 737439 6.5].

Definition nothing : Data binary64 := @Build_Data binary64 [] [].

(** Readings out of order: the second one is dated before the first. *)
Definition out_of_order : Data binary64 :=
  @Build_Data binary64
    [reading64 737456 1100 120; reading64 737425 1000 100;
     reading64 737460 1120 125] [].

(** A reading on each of three days in a row. *)
Definition daily : Data binary64 :=
  @Build_Data binary64
    [reading64 737425 1000 100; reading64 737426 1003 101;
     reading64 737427 1007 103] [].

End Examples.

Import Examples.

(** ** Lists and indices *)

Section ListFacts.

Variable T : Type.

Lemma getitem_head (x : T) (l : list T) : getitem (x :: l) 0 = Ok x.
Proof.
  unfold getitem. cbn [length].
  replace (0 <? 0) with false by reflexivity.
  replace (0 <=? 0) with true by reflexivity.
  destruct (0 <? Z.of_nat (S (length l))) eqn:E; [reflexivity | lia].
Qed.

Lemma getitem_head_inv (l : list T) (x : T) :
  getitem l 0 = Ok x -> exists l', l = x :: l'.
Proof.
  destruct l as [| y l']; [discriminate |].
  rewrite getitem_head. intros [= ->]. now exists l'.
Qed.

Lemma getitem_app (l1 l2 : list T) (x : T) :
  getitem (l1 ++ x :: l2) (Z.of_nat (length l1)) = Ok x.
Proof.
  unfold getitem.
  destruct (Z.of_nat (length l1) <? 0) eqn:E; [lia |].
  rewrite length_app. cbn [length].
  destruct ((0 <=? Z.of_nat (length l1))
            && (Z.of_nat (length l1) <? Z.of_nat (length l1 + S (length l2))))
    eqn:E'; [| lia].
  rewrite Nat2Z.id, nth_error_app2 by lia.
  now rewrite Nat.sub_diag.
Qed.

Lemma getitem_last (l : list T) (x : T) : getitem (l ++ [x]) (-1) = Ok x.
Proof.
  pose proof (getitem_app l [] x) as H.
  unfold getitem in *.
  replace (-1 <? 0) with true by reflexivity.
  rewrite length_app in *. cbn [length] in *.
  replace (-1 + Z.of_nat (length l + 1)) with (Z.of_nat (length l)) by lia.
  destruct (Z.of_nat (length l) <? 0) eqn:E; [lia | exact H].
Qed.

Lemma getitem_nil (i : Z) : getitem (@nil T) i = Err IndexError.
Proof.
  unfold getitem. cbn [length].
  destruct (i <? 0) eqn:E;
    destruct ((0 <=? _) && (_ <? Z.of_nat 0)) eqn:E'; try reflexivity; lia.
Qed.

Lemma getitem_last_inv (l : list T) (x : T) :
  getitem l (-1) = Ok x -> exists l', l = l' ++ [x].
Proof.
  destruct l as [| a l0].
  - rewrite getitem_nil. discriminate.
  - destruct (exists_last (l := a :: l0)) as [l' [y E]]; [discriminate |].
    rewrite E, getitem_last. intros [= ->]. now exists l'.
Qed.

End ListFacts.

(** ** Runs of consecutive days *)

Lemma days_length (n : nat) : forall start, length (days start n) = n.
Proof. induction n as [| n IH]; intros start; cbn; [| rewrite IH]; reflexivity. Qed.

Lemma days_nth (n : nat) : forall start i,
  (i < n)%nat -> nth_error (days start n) i = Some (start + Z.of_nat i).
Proof.
  induction n as [| n IH]; intros start i Hi; [lia |].
  destruct i as [| i]; cbn.
  - f_equal. lia.
  - rewrite IH by lia. f_equal. lia.
Qed.

Lemma days_In (n : nat) : forall start x,
  In x (days start n) <-> start <= x < start + Z.of_nat n.
Proof.
  induction n as [| n IH]; intros start x; cbn [days In].
  - lia.
  - rewrite IH. lia.
Qed.

Lemma days_sorted (n : nat) : forall start,
  StronglySorted Z.lt (days start n).
Proof.
  induction n as [| n IH]; intros start; cbn; constructor.
  - apply IH.
  - apply Forall_forall. intros x Hx. apply days_In in Hx. lia.
Qed.

Lemma days_NoDup (n : nat) : forall start, NoDup (days start n).
Proof.
  induction n as [| n IH]; intros start; cbn; constructor.
  - rewrite days_In. lia.
  - apply IH.
Qed.

Lemma days_tl (n : nat) (start : Z) :
  tl (days start n) = days (start + 1) (Nat.pred n).
Proof. destruct n; reflexivity. Qed.

(** ** Date arithmetic and the date loop *)

Lemma add_days_ok (day : date) (n : Z) :
  date_min <= day + n <= date_max -> add_days day n = Ok (day + n).
Proof.
  intros H. unfold add_days.
  destruct ((date_min <=? day + n) && (day + n <=? date_max)) eqn:E;
    [reflexivity | lia].
Qed.

Lemma add_days_overflow (day : date) (n : Z) :
  ~ date_min <= day + n <= date_max -> add_days day n = Err OverflowError.
Proof.
  intros H. unfold add_days.
  destruct ((date_min <=? day + n) && (day + n <=? date_max)) eqn:E;
    [lia | reflexivity].
Qed.

Lemma add_days_inv (day : date) (n : Z) (x : date) :
  add_days day n = Ok x -> x = day + n /\ date_min <= x <= date_max.
Proof.
  unfold add_days.
  destruct ((date_min <=? day + n) && (day + n <=? date_max)) eqn:E;
    [| discriminate].
  intros [= <-]. lia.
Qed.

Lemma add_days_error (day : date) (n : Z) (e : exn) :
  add_days day n = Err e -> e = OverflowError.
Proof.
  unfold add_days. destruct (_ && _); [discriminate | now intros [= <-]].
Qed.

(** Up to the day before [date.max] the loop yields the days from [day] to
    [last], as far as the fuel goes. *)
Lemma dates_loop_days (fuel : nat) : forall day last,
  date_min - 1 <= day -> last < date_max ->
  dates_loop fuel day last
  = Ok (days day (Nat.min fuel (Z.to_nat (last - day + 1)))).
Proof.
  induction fuel as [| fuel IH]; intros day last Hlo Hhi; [reflexivity |].
  cbn [dates_loop]. destruct (day <=? last) eqn:E.
  - rewrite add_days_ok by lia. cbn [bind]. rewrite IH by lia. cbn [bind].
    replace (Z.to_nat (last - day + 1))
      with (S (Z.to_nat (last - (day + 1) + 1))) by lia.
    reflexivity.
  - replace (Z.to_nat (last - day + 1)) with O by lia.
    now rewrite Nat.min_0_r.
Qed.

(** When the loop reaches [date.max], the step to the next day raises. *)
Lemma dates_loop_overflow (fuel : nat) : forall day last,
  day <= date_max -> date_max <= last ->
  (Z.to_nat (date_max - day) < fuel)%nat ->
  dates_loop fuel day last = Err OverflowError.
Proof.
  induction fuel as [| fuel IH]; intros day last Hday Hlast Hfuel; [lia |].
  cbn [dates_loop]. destruct (day <=? last) eqn:E; [| lia].
  unfold add_days.
  destruct ((date_min <=? day + 1) && (day + 1 <=? date_max)) eqn:E';
    [| reflexivity].
  cbn [bind]. rewrite IH by lia. reflexivity.
Qed.

(** What the loop returns are days in a row, each with a next day in the
    calendar. *)
Lemma dates_loop_inv (fuel : nat) : forall day last l,
  dates_loop fuel day last = Ok l ->
  l = days day (Nat.min fuel (Z.to_nat (last - day + 1)))
  /\ forall x, In x l -> date_min <= x + 1 <= date_max.
Proof.
  induction fuel as [| fuel IH]; intros day last l H.
  - injection H as <-. split; [reflexivity | intros x []].
  - cbn [dates_loop] in H. destruct (day <=? last) eqn:E.
    + destruct (add_days day 1) as [next |] eqn:En; cbn [bind] in H;
        [| discriminate].
      apply add_days_inv in En as [-> Hn].
      destruct (dates_loop fuel (day + 1) last) as [rest |] eqn:Er;
        cbn [bind] in H; [| discriminate].
      injection H as <-. destruct (IH _ _ _ Er) as [-> Hin]. split.
      * replace (Z.to_nat (last - day + 1))
          with (S (Z.to_nat (last - (day + 1) + 1))) by lia.
        reflexivity.
      * intros x [<- | Hx]; [lia | now apply Hin].
    + injection H as <-. split; [| intros x []].
      replace (Z.to_nat (last - day + 1)) with O by lia.
      now rewrite Nat.min_0_r.
Qed.

(** The loop raises nothing but [OverflowError]. *)
Lemma dates_loop_error (fuel : nat) : forall day last e,
  dates_loop fuel day last = Err e -> e = OverflowError.
Proof.
  induction fuel as [| fuel IH]; intros day last e H; [discriminate |].
  cbn [dates_loop] in H. destruct (day <=? last); [| discriminate].
  destruct (add_days day 1) as [next |] eqn:En; cbn [bind] in H.
  - destruct (dates_loop fuel next last) as [rest |] eqn:Er; cbn [bind] in H;
      [discriminate |].
    injection H as <-. exact (IH _ _ _ Er).
  - injection H as <-. exact (add_days_error _ _ _ En).
Qed.

(** The fuel [Data.dates] gives the loop is enough: with more of it the loop
    does the same, that is, it has stopped on its own test or on an
    exception. *)
Lemma dates_loop_fuel (fuel more : nat) : forall day last,
  (Z.to_nat (last - day + 1) <= fuel)%nat ->
  dates_loop (fuel + more) day last = dates_loop fuel day last.
Proof.
  induction fuel as [| fuel IH]; intros day last H.
  - destruct more as [| more]; [reflexivity |].
    cbn [Nat.add dates_loop]. destruct (day <=? last) eqn:E; [lia | reflexivity].
  - cbn [Nat.add dates_loop]. destruct (day <=? last) eqn:E; [| reflexivity].
    destruct (add_days day 1) as [next |] eqn:En; cbn [bind]; [| reflexivity].
    apply add_days_inv in En as [-> _]. rewrite IH by lia. reflexivity.
Qed.

(** ** The store: its ends and its order *)

Section Store.

Context {A : Arith}.
Implicit Types (d : Data A) (r p s : Reading A) (l : list (Reading A)).

Lemma store_ends l :
  l <> [] -> exists r0 rl, getitem l 0 = Ok r0 /\ getitem l (-1) = Ok rl.
Proof.
  intros Hne. destruct l as [| r0 l']; [easy |].
  destruct (exists_last (l := r0 :: l')) as [l0 [rl E]]; [easy |].
  exists r0, rl. split; [apply getitem_head |].
  rewrite E. apply getitem_last.
Qed.

Lemma covers_ends strict d r0 rl at_ :
  getitem (readings d) 0 = Ok r0 ->
  getitem (readings d) (-1) = Ok rl ->
  covers strict d at_
  = Ok ((if strict then r_at r0 <? at_ else r_at r0 <=? at_)
        && (at_ <=? r_at rl)).
Proof.
  intros H0 Hl. unfold covers. rewrite H0. cbn [bind].
  destruct (if strict then _ else _); [| reflexivity].
  rewrite Hl. reflexivity.
Qed.

(** A store whose first reading is not on [date.max], and whose last
    reading is before it: [dates] returns the days after the first date up
    to the last. *)
Lemma dates_days d r0 rl :
  getitem (readings d) 0 = Ok r0 ->
  getitem (readings d) (-1) = Ok rl ->
  date_min - 1 <= r_at r0 < date_max -> r_at rl < date_max ->
  dates d = Ok (days (r_at r0 + 1) (Z.to_nat (r_at rl - r_at r0))).
Proof.
  intros H0 Hl Hr0 Hrl. unfold dates. rewrite H0. cbn [bind].
  rewrite add_days_ok by lia. cbn [bind]. rewrite Hl. cbn [bind].
  rewrite dates_loop_days by lia. do 2 f_equal. lia.
Qed.

Lemma usage_dates_days d r0 rl :
  getitem (readings d) 0 = Ok r0 ->
  getitem (readings d) (-1) = Ok rl ->
  date_min - 1 <= r_at r0 < date_max -> r_at rl < date_max ->
  usage_dates d
  = Ok (days (r_at r0 + 2) (Z.to_nat (r_at rl - r_at r0 - 1))).
Proof.
  intros H0 Hl Hr0 Hrl. unfold usage_dates.
  rewrite (dates_days _ _ _ H0 Hl Hr0 Hrl).
  cbn [bind]. rewrite days_tl. do 2 f_equal; lia.
Qed.

(** With the first or the last reading on [date.max], [dates] raises: the
    day after the first reading, or the day after the last day yielded,
    does not exist. *)
Lemma dates_overflow d r0 rl :
  getitem (readings d) 0 = Ok r0 ->
  getitem (readings d) (-1) = Ok rl ->
  r_at r0 <= date_max -> r_at rl <= date_max ->
  r_at r0 = date_max \/ r_at rl = date_max ->
  dates d = Err OverflowError.
Proof.
  intros H0 Hl Hr0 Hrl Hmax. unfold dates. rewrite H0. cbn [bind].
  unfold add_days.
  destruct ((date_min <=? r_at r0 + 1) && (r_at r0 + 1 <=? date_max)) eqn:E;
    [| reflexivity].
  cbn [bind]. rewrite Hl. cbn [bind].
  apply dates_loop_overflow; lia.
Qed.

(** What [dates] returns, on any store: the days after the first date up
    to the last, each with a next day in the calendar. *)
Lemma dates_inv d r0 rl all :
  getitem (readings d) 0 = Ok r0 ->
  getitem (readings d) (-1) = Ok rl ->
  dates d = Ok all ->
  all = days (r_at r0 + 1) (Z.to_nat (r_at rl - r_at r0))
  /\ date_min <= r_at r0 + 1 <= date_max
  /\ forall x, In x all -> date_min <= x + 1 <= date_max.
Proof.
  intros H0 Hl H. unfold dates in H. rewrite H0 in H. cbn [bind] in H.
  destruct (add_days (r_at r0) 1) as [day |] eqn:Ed; cbn [bind] in H;
    [| discriminate].
  apply add_days_inv in Ed as [-> Hday].
  rewrite Hl in H. cbn [bind] in H.
  apply dates_loop_inv in H as [-> Hin].
  split; [f_equal; lia |]. split; [exact Hday | exact Hin].
Qed.

(** On a store with a reading, [dates] raises nothing but
    [OverflowError]. *)
Lemma dates_error d r0 e :
  getitem (readings d) 0 = Ok r0 -> dates d = Err e -> e = OverflowError.
Proof.
  intros H0 H. unfold dates in H. rewrite H0 in H. cbn [bind] in H.
  destruct (add_days (r_at r0) 1) as [day |] eqn:Ed; cbn [bind] in H.
  - destruct (store_ends (readings d)) as (r0' & rl & _ & Hl).
    { intros E. rewrite E, getitem_nil in H0. discriminate. }
    rewrite Hl in H. cbn [bind] in H. exact (dates_loop_error _ _ _ _ H).
  - injection H as <-. exact (add_days_error _ _ _ Ed).
Qed.

Lemma within_In lo hi l r :
  within lo hi l = true -> In r l -> lo <= r_at r <= hi.
Proof.
  intros H Hin. unfold within in H. rewrite forallb_forall in H.
  specialize (H r Hin). lia.
Qed.

Lemma ascending_tail r l : ascending (r :: l) = true -> ascending l = true.
Proof. destruct l as [| r' l']; cbn; [reflexivity | lia]. Qed.

Lemma ascending_after r l :
  ascending (r :: l) = true -> Forall (fun x => r_at r < r_at x) l.
Proof.
  revert r. induction l as [| r' l' IH]; intros r H; constructor.
  - cbn in H. lia.
  - assert (Hr : r_at r < r_at r') by (cbn in H; lia).
    apply ascending_tail in H. apply IH in H.
    eapply Forall_impl; [| exact H]. cbn. intros x Hx. lia.
Qed.

Lemma ascending_app_r l1 l2 :
  ascending (l1 ++ l2) = true -> ascending l2 = true.
Proof.
  induction l1 as [| r l1 IH]; [easy |].
  intros H. apply IH. exact (ascending_tail _ _ H).
Qed.

Lemma ascending_before l1 r l2 :
  ascending (l1 ++ r :: l2) = true -> Forall (fun x => r_at x < r_at r) l1.
Proof.
  induction l1 as [| x l1 IH]; intros H; constructor.
  - apply ascending_after in H. rewrite Forall_forall in H.
    apply H, in_or_app. right. now left.
  - apply IH. exact (ascending_tail _ _ H).
Qed.

Lemma first_le l r0 x :
  ascending l = true -> getitem l 0 = Ok r0 -> In x l -> r_at r0 <= r_at x.
Proof.
  intros Hasc H0 Hin. apply getitem_head_inv in H0 as [l' ->].
  destruct Hin as [-> | Hin]; [lia |].
  apply ascending_after in Hasc. rewrite Forall_forall in Hasc.
  specialize (Hasc _ Hin). lia.
Qed.

Lemma last_ge l rl x :
  ascending l = true -> getitem l (-1) = Ok rl -> In x l ->
  r_at x <= r_at rl.
Proof.
  intros Hasc Hl Hin. apply getitem_last_inv in Hl as [l' ->].
  apply in_app_or in Hin as [Hin | [-> | []]]; [| lia].
  apply ascending_before in Hasc. rewrite Forall_forall in Hasc.
  specialize (Hasc _ Hin). lia.
Qed.

(** The search passes every reading dated before [at_]. *)
Lemma next_reading_skip at_ l1 : forall i l2,
  Forall (fun x => r_at x < at_) l1 ->
  next_reading at_ i (l1 ++ l2)
  = next_reading at_ (i + Z.of_nat (length l1)) l2.
Proof.
  induction l1 as [| x l1 IH]; intros i l2 H.
  - cbn. f_equal. lia.
  - inversion H as [| ? ? Hx Hrest]; subst. cbn [app next_reading].
    destruct (at_ <=? r_at x) eqn:E; [lia |].
    rewrite IH by assumption. f_equal. cbn [length]. lia.
Qed.

(** In an ascending store the search and the step back select the two
    neighbours around [at_]. *)
Lemma bracket l1 p s l2 at_ :
  ascending (l1 ++ p :: s :: l2) = true ->
  r_at p < at_ <= r_at s ->
  next_reading at_ 0 (l1 ++ p :: s :: l2)
  = Ok (Z.of_nat (length l1) + 1, s)
  /\ getitem (l1 ++ p :: s :: l2) (Z.of_nat (length l1) + 1 - 1) = Ok p.
Proof.
  intros Hasc Hat. split.
  - change (l1 ++ p :: s :: l2) with (l1 ++ [p] ++ s :: l2).
    rewrite app_assoc, next_reading_skip.
    + cbn [next_reading]. destruct (at_ <=? r_at s) eqn:E; [| lia].
      rewrite length_app. cbn [length]. do 2 f_equal. lia.
    + apply Forall_app. split.
      * apply ascending_before in Hasc.
        eapply Forall_impl; [| exact Hasc]. cbn. intros x Hx. lia.
      * constructor; [lia | constructor].
  - replace (Z.of_nat (length l1) + 1 - 1) with (Z.of_nat (length l1)) by lia.
    apply getitem_app.
Qed.

(** Every date after the first reading's and up to the last reading's
    lies between two neighbours. *)
Lemma bracket_exists l : forall r0 rl at_,
  ascending l = true ->
  getitem l 0 = Ok r0 -> getitem l (-1) = Ok rl ->
  r_at r0 < at_ <= r_at rl ->
  exists l1 p s l2, l = l1 ++ p :: s :: l2 /\ r_at p < at_ <= r_at s.
Proof.
  induction l as [| r l IH]; intros r0 rl at_ Hasc H0 Hl Hat.
  - rewrite getitem_nil in H0. discriminate.
  - rewrite getitem_head in H0. injection H0 as ->.
    destruct l as [| s l'].
    + change [r0] with ([] ++ [r0]) in Hl. rewrite getitem_last in Hl.
      injection Hl as <-. lia.
    + destruct (at_ <=? r_at s) eqn:E.
      * exists [], r0, s, l'. split; [reflexivity | lia].
      * assert (Hl' : getitem (s :: l') (-1) = Ok rl).
        { apply getitem_last_inv in Hl as [l0 E0].
          destruct l0 as [| x l0]; [discriminate |].
          injection E0 as -> E0. rewrite E0. apply getitem_last. }
        destruct (IH s rl at_ (ascending_tail _ _ Hasc)
                    (getitem_head _ _ _) Hl') as (l1 & p & s' & l2 & E1 & Hb);
          [lia |].
        exists (r0 :: l1), p, s', l2. split; [| exact Hb].
        cbn [app]. now rewrite E1.
Qed.

(** In an ascending store every reading is dated from the first date to
    the last. *)
Lemma ascending_within l r0 rl :
  ascending l = true ->
  getitem l 0 = Ok r0 -> getitem l (-1) = Ok rl ->
  within (r_at r0) (r_at rl) l = true.
Proof.
  intros Hasc H0 Hl. unfold within. apply forallb_forall. intros x Hx.
  pose proof (first_le _ _ _ Hasc H0 Hx).
  pose proof (last_ge _ _ _ Hasc Hl Hx). lia.
Qed.

Lemma within_weaken lo hi lo' hi' l :
  lo' <= lo -> hi <= hi' -> within lo hi l = true -> within lo' hi' l = true.
Proof.
  intros Hlo Hhi H. unfold within in *. rewrite forallb_forall in *.
  intros x Hx. specialize (H x Hx). lia.
Qed.

(** The two ends of a store that keeps the invariants. *)
Lemma store_invariant_ends d r0 rl :
  store_invariant d ->
  getitem (readings d) 0 = Ok r0 -> getitem (readings d) (-1) = Ok rl ->
  calendar (r_at r0) /\ calendar (r_at rl) /\ r_at r0 <= r_at rl.
Proof.
  intros (_ & Hasc & Hcal) H0 Hl.
  assert (In0 : In r0 (readings d))
    by (apply getitem_head_inv in H0 as [l' ->]; now left).
  assert (Inl : In rl (readings d))
    by (apply getitem_last_inv in Hl as [l' ->]; apply in_or_app; right;
        now left).
  pose proof (within_In _ _ _ _ Hcal In0).
  pose proof (within_In _ _ _ _ Hcal Inl).
  pose proof (first_le _ _ _ Hasc H0 Inl).
  unfold calendar. lia.
Qed.

End Store.
(** ** Arithmetic facts *)

Section ArithFacts.

Context {A : Arith}.

Lemma to_float_error (x : num A) (e : exn) :
  to_float x = Err e -> e = OverflowError.
Proof.
  destruct x as [z | f]; cbn; [| discriminate].
  destruct (of_int z); [discriminate | now intros [= <-]].
Qed.

Lemma binop_error iop fop (x y : num A) (e : exn) :
  binop iop fop x y = Err e -> e = OverflowError.
Proof.
  unfold binop.
  destruct x as [a | a], y as [b | b]; try discriminate;
    cbn [to_float bind];
    repeat match goal with
           | |- context [of_int ?z] => destruct (of_int z); cbn [bind]
           end;
    try discriminate; now intros [= <-].
Qed.

(** With two different timestamps [interpolate] does not divide by zero:
    the one exception left to it is the overflow of a conversion. *)
Lemma interpolate_error first second current (v0 v1 : num A) (e : exn) :
  second <> first ->
  interpolate first second current v0 v1 = Err e -> e = OverflowError.
Proof.
  intros Hne. unfold interpolate, truediv.
  destruct (second - first =? 0) eqn:E; [lia |].
  destruct (div_int _ _); cbn [bind]; [| now intros [= <-]].
  destruct (sub v1 v0) as [delta |] eqn:E1; cbn [bind];
    [| intros [= <-]; exact (binop_error _ _ _ _ _ E1)].
  destruct (mul delta _) as [share |] eqn:E2; cbn [bind];
    [| intros [= <-]; exact (binop_error _ _ _ _ _ E2)].
  apply binop_error.
Qed.

Lemma interpolate_same first current (v0 v1 : num A) :
  interpolate first first current v0 v1 = Err ZeroDivisionError.
Proof.
  unfold interpolate, truediv. now rewrite Z.sub_diag.
Qed.

End ArithFacts.

(** *** Exact arithmetic *)

Lemma inject_Z_sub (a b : Z) : (inject_Z (a - b) == inject_Z a - inject_Z b)%Q.
Proof. unfold Qeq. cbn. lia. Qed.

(** In exact arithmetic [interpolate] returns the point of the line through
    the two readings. *)
Lemma interpolate_rational first second current (v0 v1 : num rational) :
  second <> first ->
  exists v, interpolate first second current v0 v1 = Ok v
    /\ (value v == value v0 + (value v1 - value v0)
                   * (inject_Z (current - first) / inject_Z (second - first)))%Q.
Proof.
  intros Hne. unfold interpolate, truediv.
  destruct (second - first =? 0) eqn:E; [lia |].
  destruct v0 as [a | a], v1 as [b | b]; cbn; eexists; (split; [reflexivity |]);
    cbn; rewrite ?(inject_Z_sub b a); reflexivity.
Qed.

(** *** Binary64 *)

Module Binary64Facts.

Import Binary64.

Lemma SFdiv_core_self (p : positive) :
  SFdiv_core_binary prec emax (Zpos p) 0 (Zpos p) 0
  = (2 ^ 53, -53, loc_Exact).
Proof.
  unfold SFdiv_core_binary.
  replace (Zdigits2 (Z.pos p) + 0 - (Zdigits2 (Z.pos p) + 0)) with 0 by lia.
  change (Z.min (fexp prec emax 0) (0 - 0)) with (-53).
  change (0 - 0 - -53) with 53.
  cbv iota beta.
  rewrite Z.shiftl_mul_pow2 by lia.
  assert (H : Z.div_eucl (Z.pos p * 2 ^ 53) (Z.pos p) = (2 ^ 53, 0)).
  { destruct (Z.div_eucl (Z.pos p * 2 ^ 53) (Z.pos p)) as [q r] eqn:E.
    assert (Hq : q = Z.pos p * 2 ^ 53 / Z.pos p)
      by (unfold Z.div; now rewrite E).
    assert (Hr : r = (Z.pos p * 2 ^ 53) mod Z.pos p)
      by (unfold Z.modulo; now rewrite E).
    rewrite Z.mul_comm, Z.div_mul in Hq by lia.
    rewrite Z.mul_comm, Z.mod_mul in Hr by lia.
    now subst. }
  rewrite H. unfold new_location.
  destruct (Z.even (Z.pos p)); reflexivity.
Qed.

(** An integer divided by itself is the double [1.0]. *)
Lemma int_div_self (n : Z) : n <> 0 -> int_div n n = Some 1%float.
Proof.
  intros Hn. unfold int_div.
  assert (E : SFdiv prec emax (big n) (big n)
              = S754_finite false 4503599627370496 (-52)).
  { destruct n as [| p | p]; [easy | |]; cbn [big SFdiv];
      rewrite SFdiv_core_self; destruct p; reflexivity. }
  rewrite E. reflexivity.
Qed.

(** **** Integers below 2^53 are converted, added and multiplied by one exactly *)

(** [iter_pos] of SpecFloat is iteration a number of times. *)
Lemma iter_pos_nat (T : Type) (f : T -> T) (p : positive) : forall x,
  iter_pos f p x = Nat.iter (Pos.to_nat p) f x.
Proof.
  assert (Hadd : forall n m x, Nat.iter (n + m) f x = Nat.iter n f (Nat.iter m f x))
    by (intros n m x; apply Nat.iter_add).
  induction p as [p IH | p IH |]; intros x; cbn [iter_pos].
  - rewrite !IH, Pos2Nat.inj_xI.
    replace (S (2 * Pos.to_nat p))%nat with (Pos.to_nat p + (Pos.to_nat p + 1))%nat by lia.
    rewrite !Hadd. reflexivity.
  - rewrite !IH, Pos2Nat.inj_xO.
    replace (2 * Pos.to_nat p)%nat with (Pos.to_nat p + Pos.to_nat p)%nat by lia.
    rewrite Hadd. reflexivity.
  - reflexivity.
Qed.

Lemma shiftl_nat_value (m : positive) (n : nat) :
  Zpos (Pos.shiftl_nat m n) = Zpos m * 2 ^ Z.of_nat n.
Proof.
  induction n as [| n IH].
  - cbn. lia.
  - change (Pos.shiftl_nat m (S n)) with (xO (Pos.shiftl_nat m n)).
    rewrite (Pos2Z.inj_xO (Pos.shiftl_nat m n)), IH, Nat2Z.inj_succ, Z.pow_succ_r by lia. lia.
Qed.

Lemma shiftl_nat_digits (m : positive) (n : nat) :
  Zpos (digits2_pos (Pos.shiftl_nat m n)) = Zpos (digits2_pos m) + Z.of_nat n.
Proof.
  induction n as [| n IH].
  - cbn. lia.
  - change (Pos.shiftl_nat m (S n)) with (xO (Pos.shiftl_nat m n)).
    cbn [digits2_pos]. rewrite Pos2Z.inj_succ, IH. lia.
Qed.

Lemma shiftl_nat_of_value (q m : positive) (k : Z) :
  0 <= k -> Zpos q = Zpos m * 2 ^ k -> q = Pos.shiftl_nat m (Z.to_nat k).
Proof.
  intros Hk H. apply Pos2Z.inj. rewrite shiftl_nat_value, Z2Nat.id by lia.
  exact H.
Qed.

Lemma digits2_bounds (z : positive) :
  2 ^ (Zpos (digits2_pos z) - 1) <= Zpos z < 2 ^ Zpos (digits2_pos z).
Proof.
  induction z as [z IH | z IH |]; cbn [digits2_pos].
  - rewrite Pos2Z.inj_succ, (Pos2Z.inj_xI z).
    replace (Z.succ (Zpos (digits2_pos z)) - 1) with (Z.succ (Zpos (digits2_pos z) - 1)) by lia.
    rewrite !Z.pow_succ_r by lia. lia.
  - rewrite Pos2Z.inj_succ, (Pos2Z.inj_xO z).
    replace (Z.succ (Zpos (digits2_pos z)) - 1) with (Z.succ (Zpos (digits2_pos z) - 1)) by lia.
    rewrite !Z.pow_succ_r by lia. lia.
  - cbn. lia.
Qed.

(** Shifting out zero bits is exact. *)
Lemma shr_1_exact (n : nat) : forall m,
  Nat.iter n shr_1 {| shr_m := Zpos (Pos.shiftl_nat m n); shr_r := false; shr_s := false |}
  = {| shr_m := Zpos m; shr_r := false; shr_s := false |}.
Proof.
  induction n as [| n IH]; intros m; [reflexivity |].
  rewrite Nat.iter_succ_r.
  change (Pos.shiftl_nat m (S n)) with (xO (Pos.shiftl_nat m n)).
  cbn [shr_1 orb]. apply IH.
Qed.

Lemma fexp_normal (e : Z) : -1074 <= e -> fexp prec emax (53 + e) = e.
Proof. intros H. unfold fexp, SpecFloat.emin, prec, emax. lia. Qed.

Lemma shr_fexp_exact (m : positive) (n : nat) (e : Z) :
  normal m e ->
  shr_fexp prec emax (Zpos (Pos.shiftl_nat m n)) (e - Z.of_nat n) loc_Exact
  = ({| shr_m := Zpos m; shr_r := false; shr_s := false |}, e).
Proof.
  intros [Hd He]. unfold shr_fexp. cbn [Zdigits2].
  rewrite shiftl_nat_digits, Hd.
  replace (53 + Z.of_nat n + (e - Z.of_nat n)) with (53 + e) by lia.
  rewrite fexp_normal by lia.
  replace (e - (e - Z.of_nat n)) with (Z.of_nat n) by lia.
  cbn [shr_record_of_loc]. unfold shr. destruct n as [| n].
  - cbn [Z.of_nat Pos.shiftl_nat Nat.iter nat_rect]. f_equal. lia.
  - cbn [Z.of_nat].
    rewrite iter_pos_nat, SuccNat2Pos.id_succ, shr_1_exact. f_equal. lia.
Qed.

(** Rounding a mantissa that is a normal one followed by zero bits. *)
Lemma binary_round_aux_exact (s : bool) (m : positive) (n : nat) (e : Z) :
  normal m e ->
  binary_round_aux prec emax s (Zpos (Pos.shiftl_nat m n)) (e - Z.of_nat n)
                   loc_Exact
  = S754_finite s m e.
Proof.
  intros H. unfold binary_round_aux.
  rewrite (shr_fexp_exact m n e H).
  cbn [shr_m loc_of_shr_record round_nearest_even].
  pose proof (shr_fexp_exact m 0 e H) as H0.
  cbn [Z.of_nat Pos.shiftl_nat Nat.iter nat_rect] in H0.
  rewrite Z.sub_0_r in H0. rewrite H0. cbn [shr_m].
  destruct H as [_ He].
  destruct (e <=? emax - prec) eqn:E; [reflexivity |].
  unfold emax, prec in E. lia.
Qed.

(** [binary_round] brings any exact representation to the normal form. *)
Lemma binary_round_exact (s : bool) (q m : positive) (e0 e : Z) :
  normal m e ->
  (e0 <= e /\ Zpos q = Zpos m * 2 ^ (e - e0))
  \/ (e <= e0 /\ Zpos m = Zpos q * 2 ^ (e0 - e)) ->
  binary_round prec emax s q e0 = S754_finite s m e.
Proof.
  intros H Hrep. pose proof H as [Hd He]. unfold binary_round.
  assert (Hdq : Zpos (digits2_pos q) + e0 = 53 + e).
  { destruct Hrep as [[Hle Hq] | [Hle Hq]].
    - apply shiftl_nat_of_value in Hq; [| lia]. subst q.
      rewrite shiftl_nat_digits, Hd. lia.
    - apply shiftl_nat_of_value in Hq; [| lia]. subst m.
      rewrite shiftl_nat_digits in Hd. lia. }
  rewrite Hdq, fexp_normal by lia. unfold shl_align.
  destruct (e - e0) as [| k | k] eqn:Ek.
  - assert (q = m).
    { apply Pos2Z.inj.
      destruct Hrep as [[_ Hq] | [_ Hq]];
        [replace (e - e0) with 0 in Hq by lia
        | replace (e0 - e) with 0 in Hq by lia];
        rewrite Z.pow_0_r in Hq; lia. }
    assert (e0 = e) by lia. subst q e0.
    pose proof (binary_round_aux_exact s m 0 e H) as R.
    cbn [Z.of_nat Pos.shiftl_nat Nat.iter nat_rect] in R.
    now rewrite Z.sub_0_r in R.
  - destruct Hrep as [[Hle Hq] | [Hle Hq]]; [| lia].
    apply shiftl_nat_of_value in Hq; [| lia]. subst q.
    replace e0 with (e - Z.of_nat (Z.to_nat (Z.pos k))) by lia.
    now apply binary_round_aux_exact.
  - destruct Hrep as [[Hle Hq] | [Hle Hq]]; [lia |].
    assert (Pos.iter xO q k = m).
    { apply shiftl_nat_of_value in Hq; [| lia]. subst m.
      rewrite Pos2Nat.inj_iter. unfold Pos.shiftl_nat.
      replace (Z.to_nat (e0 - e)) with (Pos.to_nat k) by lia. reflexivity. }
    subst m.
    pose proof (binary_round_aux_exact s (Pos.iter xO q k) 0 e H) as R.
    cbn [Z.of_nat Pos.shiftl_nat Nat.iter nat_rect] in R.
    now rewrite Z.sub_0_r in R.
Qed.

Lemma digits2_small (z : positive) :
  Zpos z < 2 ^ 53 -> Zpos (digits2_pos z) <= 53.
Proof.
  intros Hz. pose proof (digits2_bounds z) as [Hlo _].
  destruct (Z_le_gt_dec (Zpos (digits2_pos z)) 53) as [H | H]; [exact H |].
  assert (2 ^ 53 <= 2 ^ (Zpos (digits2_pos z) - 1))
    by (apply Z.pow_le_mono_r; lia).
  lia.
Qed.

Lemma digits2_mono (a b : positive) :
  Zpos a <= Zpos b -> Zpos (digits2_pos a) <= Zpos (digits2_pos b).
Proof.
  intros Hab. pose proof (digits2_bounds a) as [Hlo _].
  pose proof (digits2_bounds b) as [_ Hhi].
  destruct (Z_le_gt_dec (Zpos (digits2_pos a)) (Zpos (digits2_pos b)))
    as [H | H]; [exact H |].
  assert (2 ^ Zpos (digits2_pos b) <= 2 ^ (Zpos (digits2_pos a) - 1))
    by (apply Z.pow_le_mono_r; lia).
  lia.
Qed.

Lemma canon_normal (z : positive) :
  Zpos z < 2 ^ 53 ->
  normal (Pos.shiftl_nat z (Z.to_nat (53 - Zpos (digits2_pos z))))
         (Zpos (digits2_pos z) - 53).
Proof.
  intros Hz. pose proof (digits2_small z Hz). split.
  - rewrite shiftl_nat_digits. lia.
  - lia.
Qed.

Lemma canon_value (z : positive) :
  Zpos z < 2 ^ 53 ->
  Zpos (Pos.shiftl_nat z (Z.to_nat (53 - Zpos (digits2_pos z))))
  = Zpos z * 2 ^ (53 - Zpos (digits2_pos z)).
Proof.
  intros Hz. pose proof (digits2_small z Hz).
  rewrite shiftl_nat_value, Z2Nat.id by lia. reflexivity.
Qed.

Lemma binary_normalize_pos (z : positive) :
  Zpos z < 2 ^ 53 -> binary_normalize prec emax (Zpos z) 0 false = canon z.
Proof.
  intros Hz. cbn [binary_normalize]. unfold canon.
  apply binary_round_exact; [now apply canon_normal |].
  pose proof (digits2_small z Hz). right. split; [lia |].
  rewrite canon_value by assumption. f_equal. f_equal. lia.
Qed.

Lemma SFmul_one (s : bool) (m : positive) (e : Z) :
  normal m e ->
  SFmul prec emax (S754_finite s m e)
        (S754_finite false 4503599627370496 (-52))
  = S754_finite s m e.
Proof.
  intros H. cbn [SFmul].
  replace (m * 4503599627370496)%positive with (Pos.shiftl_nat m 52).
  - replace (xorb s false) with s by now destruct s.
    exact (binary_round_aux_exact s m 52 e H).
  - apply Pos2Z.inj. rewrite shiftl_nat_value, Pos2Z.inj_mul. reflexivity.
Qed.

Lemma shl_align_value (m : positive) (e ez : Z) :
  ez <= e -> Zpos (fst (shl_align m e ez)) = Zpos m * 2 ^ (e - ez).
Proof.
  intros Hle. unfold shl_align. destruct (ez - e) as [| k | k] eqn:Ek.
  - replace (e - ez) with 0 by lia. cbn [fst]. lia.
  - lia.
  - cbn [fst]. rewrite Pos2Nat.inj_iter.
    change (nat_rect (fun _ => positive) m (fun _ => xO) (Pos.to_nat k))
      with (Pos.shiftl_nat m (Pos.to_nat k)).
    rewrite shiftl_nat_value. f_equal. f_equal. lia.
Qed.

Lemma SFadd_canon (a c : positive) :
  Zpos a + Zpos c < 2 ^ 53 ->
  SFadd prec emax (canon a) (canon c) = canon (a + c).
Proof.
  intros Hsum.
  assert (Ha : Zpos a < 2 ^ 53) by lia.
  assert (Hc : Zpos c < 2 ^ 53) by lia.
  assert (Hs : Zpos (a + c) < 2 ^ 53) by (rewrite Pos2Z.inj_add; lia).
  pose proof (digits2_small a Ha) as Hda.
  pose proof (digits2_small c Hc) as Hdc.
  pose proof (digits2_small (a + c) Hs) as Hds.
  assert (Hma : Zpos (digits2_pos a) <= Zpos (digits2_pos (a + c)))
    by (apply digits2_mono; lia).
  assert (Hmc : Zpos (digits2_pos c) <= Zpos (digits2_pos (a + c)))
    by (apply digits2_mono; lia).
  unfold canon at 1 2. cbn [SFadd cond_Zopp].
  set (ez := Z.min (Zpos (digits2_pos a) - 53) (Zpos (digits2_pos c) - 53)).
  destruct (shl_align _ (Zpos (digits2_pos a) - 53) ez) as [qa ea] eqn:Ea.
  destruct (shl_align _ (Zpos (digits2_pos c) - 53) ez) as [qc ec] eqn:Ec.
  cbn [fst Z.add binary_normalize]. unfold canon.
  apply binary_round_exact; [now apply canon_normal |].
  left. split; [lia |].
  apply (f_equal fst) in Ea, Ec. cbn [fst] in Ea, Ec.
  apply (f_equal Zpos) in Ea, Ec.
  rewrite shl_align_value, canon_value in Ea, Ec by (assumption || lia).
  rewrite Pos2Z.inj_add, <- Ea, <- Ec, canon_value by assumption.
  rewrite <- !Z.mul_assoc, <- !Z.pow_add_r by lia.
  rewrite Pos2Z.inj_add, Z.mul_add_distr_r.
  f_equal; f_equal; f_equal; lia.
Qed.

Lemma canon_valid (z : positive) :
  Zpos z < 2 ^ 53 -> valid_binary (canon z) = true.
Proof.
  intros Hz. destruct (canon_normal z Hz) as [Hd He].
  unfold canon. cbn [SpecFloat.valid_binary]. unfold bounded, canonical_mantissa.
  rewrite Hd, fexp_normal by lia. unfold emax, prec. lia.
Qed.

Lemma Prim2SF_float_of_int (z : positive) :
  Zpos z < 2 ^ 53 -> Prim2SF (float_of_int (Zpos z)) = canon z.
Proof.
  intros Hz. unfold float_of_int. rewrite binary_normalize_pos by assumption.
  now apply Prim2SF_SF2Prim, canon_valid.
Qed.

Lemma float_of_int_finite (z : Z) :
  0 <= z < 2 ^ 53 -> is_infinity (float_of_int z) = false.
Proof.
  intros Hz. destruct z as [| z | z]; [reflexivity | | lia].
  unfold is_infinity.
  rewrite eqb_spec, abs_spec, Prim2SF_float_of_int by lia. reflexivity.
Qed.

Lemma float_of_int_mul_one (z : Z) :
  0 <= z < 2 ^ 53 -> (float_of_int z * 1)%float = float_of_int z.
Proof.
  intros Hz. destruct z as [| z | z]; [reflexivity | | lia].
  apply Prim2SF_inj. rewrite mul_spec, Prim2SF_float_of_int by lia.
  change (Prim2SF 1) with (S754_finite false 4503599627370496 (-52)).
  apply SFmul_one. apply canon_normal. lia.
Qed.

Lemma float_of_int_add (a c : Z) :
  0 <= a -> 0 <= c -> a + c < 2 ^ 53 ->
  (float_of_int a + float_of_int c)%float = float_of_int (a + c).
Proof.
  intros Ha Hc Hsum. apply Prim2SF_inj. rewrite add_spec.
  destruct a as [| a | a]; [| | lia]; destruct c as [| c | c]; try lia.
  - reflexivity.
  - rewrite Z.add_0_l, Prim2SF_float_of_int by lia. reflexivity.
  - rewrite Z.add_0_r, Prim2SF_float_of_int by lia. reflexivity.
  - rewrite !Prim2SF_float_of_int by lia.
    change (Zpos a + Zpos c) with (Zpos (a + c)).
    rewrite Prim2SF_float_of_int by (rewrite Pos2Z.inj_add; lia).
    apply SFadd_canon. lia.
Qed.

(** The double of an integer from 0 to 2^53 - 1 stands for that integer. *)
Lemma float_of_int_exact (z : positive) :
  Zpos z < 2 ^ 53 ->
  exists m e, Prim2SF (float_of_int (Zpos z)) = S754_finite false m e
              /\ e <= 0 /\ Zpos m = Zpos z * 2 ^ (- e).
Proof.
  intros Hz. pose proof (digits2_small z Hz).
  eexists _, _. split; [now apply Prim2SF_float_of_int |].
  split; [lia |]. rewrite canon_value by assumption. f_equal. f_equal. lia.
Qed.

Lemma int_to_float_small (z : Z) :
  0 <= z < 2 ^ 53 -> int_to_float z = Some (float_of_int z).
Proof.
  intros Hz. unfold int_to_float, finite. now rewrite float_of_int_finite.
Qed.

Lemma eq_int_float_of_int (z : Z) :
  0 <= z < 2 ^ 53 -> eq_int (float_of_int z) z = true.
Proof.
  intros Hz. destruct z as [| z | z]; [reflexivity | | lia].
  destruct (float_of_int_exact z) as (m & e & E & He & Hm); [lia |].
  unfold eq_int. rewrite E. destruct (0 <=? e) eqn:E0.
  - assert (e = 0) by lia. subst e. cbn [cond_Zopp]. apply Z.eqb_eq.
    rewrite Hm. change (2 ^ (- 0)) with 1. change (2 ^ 0) with 1. lia.
  - cbn [cond_Zopp]. apply Z.eqb_eq. exact Hm.
Qed.

(** At the second timestamp the progress is [1.0]. *)
Lemma interpolate_at_second first second (v0 v1 : num binary64) :
  second <> first ->
  interpolate first second second v0 v1
  = (delta <- sub v1 v0 ;; share <- mul delta (Float (A := binary64) 1%float) ;;
     add v0 share).
Proof.
  intros Hne. unfold interpolate, truediv.
  destruct (second - first =? 0) eqn:E; [lia |].
  cbn [div_int binary64]. rewrite int_div_self by lia. reflexivity.
Qed.

(** Between two integers from 0 to 2^53 - 1 in ascending order, the
    interpolation at the second timestamp returns the double of the second
    integer. *)
Lemma interpolate_int_at_second (first second a b : Z) :
  second <> first ->
  0 <= a <= b -> b < 2 ^ 53 ->
  interpolate (A := binary64) first second second (Int a) (Int b)
  = Ok (Float (A := binary64) (float_of_int b)).
Proof.
  intros Hne Hab Hb. rewrite interpolate_at_second by assumption.
  unfold sub, mul, add, binop. cbn [bind to_float of_int binary64].
  rewrite (int_to_float_small (b - a)) by lia. cbn [bind fmul binary64].
  rewrite float_of_int_mul_one by lia.
  rewrite (int_to_float_small a) by lia. cbn [bind to_float fadd binary64].
  rewrite float_of_int_add by lia.
  do 3 f_equal. lia.
Qed.

End Binary64Facts.
(** ** Lookup, usage and the annual figures *)

Section Lookup.

Context {A : Arith}.
Variable ts : date -> result Z.
Implicit Types (d : Data A) (r p s : Reading A) (energy : Energy).

(** Outside the dates of the store the assertion of [reading] fails. *)
Lemma reading_outside d r0 rl at_ energy :
  getitem (readings d) 0 = Ok r0 ->
  getitem (readings d) (-1) = Ok rl ->
  ~ r_at r0 <= at_ <= r_at rl ->
  reading ts d at_ energy = Err AssertionError.
Proof.
  intros H0 Hl Hout. unfold reading.
  rewrite (covers_ends false _ _ _ _ H0 Hl). cbn [bind].
  destruct ((r_at r0 <=? at_) && (at_ <=? r_at rl)) eqn:E; [lia |].
  reflexivity.
Qed.

(** At the first reading's date the stored value is returned when the last
    reading is not dated before the first. *)
Lemma reading_at_first d r0 rl energy :
  getitem (readings d) 0 = Ok r0 ->
  getitem (readings d) (-1) = Ok rl ->
  r_at r0 <= r_at rl ->
  reading ts d (r_at r0) energy = Ok (get r0 energy).
Proof.
  intros H0 Hl Hle. unfold reading.
  rewrite (covers_ends false d r0 rl (r_at r0) H0 Hl). cbn [bind].
  destruct ((r_at r0 <=? r_at r0) && (r_at r0 <=? r_at rl)) eqn:E; [| lia].
  cbn [assert bind]. rewrite H0. cbn [bind]. now rewrite Z.eqb_refl.
Qed.

(** At the first date of an ascending store the first reading is returned
    as it is stored. *)
Lemma reading_first d r0 energy :
  ascending (readings d) = true ->
  getitem (readings d) 0 = Ok r0 ->
  reading ts d (r_at r0) energy = Ok (get r0 energy).
Proof.
  intros Hasc H0.
  destruct (store_ends (readings d)) as (r0' & rl & H0' & Hl).
  { intros E. rewrite E, getitem_nil in H0. discriminate. }
  rewrite H0 in H0'. injection H0' as <-.
  apply reading_at_first with (rl := rl); try assumption.
  apply (first_le _ _ _ Hasc H0).
  apply getitem_last_inv in Hl as [l' ->].
  apply in_or_app. right. now left.
Qed.

(** The search stops at the first reading that is not before [at_], and
    every reading it passed is before [at_]. *)
Lemma next_reading_found (at_ : date) (l : list (Reading A)) :
  forall i,
    Exists (fun x => at_ <= r_at x) l ->
    exists l1 s l2,
      l = l1 ++ s :: l2
      /\ Forall (fun x => r_at x < at_) l1
      /\ at_ <= r_at s
      /\ next_reading at_ i l = Ok (i + Z.of_nat (length l1), s).
Proof.
  induction l as [| r l IH]; intros i Hex.
  - inversion Hex.
  - cbn [next_reading]. destruct (at_ <=? r_at r) eqn:E.
    + exists [], r, l. repeat split; [constructor | lia |].
      cbn. do 2 f_equal. lia.
    + assert (Hex' : Exists (fun x => at_ <= r_at x) l)
        by (inversion Hex; subst; [lia | assumption]).
      destruct (IH (i + 1) Hex') as (l1 & s & l2 & -> & Hall & Hs & Hn).
      exists (r :: l1), s, l2. repeat split; try assumption.
      * constructor; [lia | assumption].
      * rewrite Hn. cbn [length]. do 2 f_equal. lia.
Qed.

(** On any store, ordered or not: after the first reading's date and up to
    the last reading's, the lookup interpolates between the first reading
    [s] that is not before the query and the reading [p] just before [s] in
    the store, which is before the query. *)
Lemma reading_bracket d r0 rl at_ energy :
  getitem (readings d) 0 = Ok r0 ->
  getitem (readings d) (-1) = Ok rl ->
  r_at r0 < at_ <= r_at rl ->
  exists l1 p s l2,
    readings d = l1 ++ p :: s :: l2
    /\ Forall (fun x => r_at x < at_) l1
    /\ r_at p < at_ <= r_at s
    /\ reading ts d at_ energy = interpolated ts p s at_ energy.
Proof.
  intros H0 Hl Hat.
  destruct (next_reading_found at_ (readings d) 0)
    as (la & s & l2 & E & Hall & Hs & Hn).
  { apply getitem_last_inv in Hl as [l' ->].
    apply Exists_app. right. constructor. lia. }
  destruct (exists_last (l := la)) as (l1 & p & ->).
  { intros ->. rewrite E in H0. cbn [app] in H0.
    rewrite getitem_head in H0. injection H0 as ->. lia. }
  apply Forall_app in Hall as [Hall Hp].
  inversion Hp as [| ? ? Hp' _]; subst.
  exists l1, p, s, l2. rewrite <- app_assoc in E. cbn [app] in E.
  split; [exact E |]. split; [exact Hall |]. split; [lia |].
  unfold reading. rewrite (covers_ends false d r0 rl at_ H0 Hl). cbn [bind].
  destruct ((r_at r0 <=? at_) && (at_ <=? r_at rl)) eqn:Hin; [| lia].
  cbn [assert bind]. rewrite H0. cbn [bind].
  destruct (at_ =? r_at r0) eqn:Heq; [lia |].
  rewrite Hn. cbn [bind]. rewrite E.
  rewrite length_app. cbn [length].
  replace (0 + Z.of_nat (length l1 + 1) - 1) with (Z.of_nat (length l1)) by lia.
  rewrite getitem_app. reflexivity.
Qed.

(** After a reading [p] and up to the next one [s] of an ascending store,
    the lookup interpolates between [p] and [s]. *)
Lemma reading_between d l1 p s l2 at_ energy :
  ascending (readings d) = true ->
  readings d = l1 ++ p :: s :: l2 ->
  r_at p < at_ <= r_at s ->
  reading ts d at_ energy = interpolated ts p s at_ energy.
Proof.
  intros Hasc E Hat.
  destruct (store_ends (readings d)) as (r0 & rl & H0 & Hl).
  { rewrite E. now destruct l1. }
  assert (H0p : r_at r0 <= r_at p).
  { apply (first_le _ _ _ Hasc H0). rewrite E. apply in_or_app. right. now left. }
  assert (Hsl : r_at s <= r_at rl).
  { apply (last_ge _ _ _ Hasc Hl). rewrite E. apply in_or_app. right.
    right. now left. }
  unfold reading. rewrite (covers_ends false _ _ _ _ H0 Hl). cbn [bind].
  destruct ((r_at r0 <=? at_) && (at_ <=? r_at rl)) eqn:Hin; [| lia].
  cbn [assert bind]. rewrite H0. cbn [bind].
  destruct (at_ =? r_at r0) eqn:Heq; [lia |].
  rewrite E in Hasc |- *.
  destruct (bracket _ _ _ _ _ Hasc Hat) as [Hnext Hprev].
  rewrite Hnext. cbn [bind]. rewrite Hprev. reflexivity.
Qed.

(** Where the timestamps are there and ascend, the call of [interpolate] is
    a call on three timestamps in that order. *)
Lemma interpolated_timestamps lo hi p s at_ energy :
  increasing ts lo hi ->
  lo <= r_at p -> r_at p < at_ -> at_ <= r_at s -> r_at s <= hi ->
  exists first second current,
    ts (r_at p) = Ok first /\ ts (r_at s) = Ok second /\ ts at_ = Ok current
    /\ first < current <= second
    /\ interpolated ts p s at_ energy
       = interpolate first second current (get p energy) (get s energy).
Proof.
  intros [Hdef Hinc] Hlo Hp Hs Hhi.
  destruct (Hdef (r_at p)) as [first Hf]; [lia |].
  destruct (Hdef (r_at s)) as [second Hsnd]; [lia |].
  destruct (Hdef at_) as [current Hc]; [lia |].
  exists first, second, current.
  split; [exact Hf |]. split; [exact Hsnd |]. split; [exact Hc |].
  split.
  - pose proof (Hinc _ _ _ _ Hlo Hp ltac:(lia) Hf Hc).
    destruct (Z.eq_dec at_ (r_at s)) as [E | Hne].
    + rewrite E, Hsnd in Hc. injection Hc as ->. lia.
    + pose proof (Hinc at_ (r_at s) _ _ ltac:(lia) ltac:(lia) Hhi Hc Hsnd). lia.
  - unfold interpolated. rewrite Hf, Hsnd, Hc. reflexivity.
Qed.

(** [usage] inside its dates: the lookup at the date, then the step to the
    day before, then the lookup there. *)
Lemma usage_inside_step d r0 rl at_ energy :
  getitem (readings d) 0 = Ok r0 ->
  getitem (readings d) (-1) = Ok rl ->
  r_at r0 < at_ <= r_at rl ->
  usage ts d at_ energy
  = (today <- reading ts d at_ energy ;;
     day_before <- add_days at_ (-1) ;;
     yesterday <- reading ts d day_before energy ;;
     sub today yesterday).
Proof.
  intros H0 Hl Hin. unfold usage.
  rewrite (covers_ends true _ _ _ _ H0 Hl). cbn [bind].
  destruct ((r_at r0 <? at_) && (at_ <=? r_at rl)) eqn:E; [| lia].
  reflexivity.
Qed.

(** [usage] inside its dates is the difference of two lookups, when the
    day before is a date of the calendar. *)
Lemma usage_inside d r0 rl at_ energy :
  getitem (readings d) 0 = Ok r0 ->
  getitem (readings d) (-1) = Ok rl ->
  r_at r0 < at_ <= r_at rl ->
  date_min <= at_ - 1 <= date_max ->
  usage ts d at_ energy
  = (today <- reading ts d at_ energy ;;
     yesterday <- reading ts d (at_ - 1) energy ;;
     sub today yesterday).
Proof.
  intros H0 Hl Hin Hcal.
  rewrite (usage_inside_step d r0 rl at_ energy H0 Hl Hin).
  replace (add_days at_ (-1)) with (Ok (T := date) (at_ - 1)); [reflexivity |].
  symmetry. apply (add_days_ok at_ (-1)). lia.
Qed.

Lemma usage_outside d r0 rl at_ energy :
  getitem (readings d) 0 = Ok r0 ->
  getitem (readings d) (-1) = Ok rl ->
  ~ r_at r0 < at_ <= r_at rl ->
  usage ts d at_ energy = Err AssertionError.
Proof.
  intros H0 Hl Hout. unfold usage.
  rewrite (covers_ends true _ _ _ _ H0 Hl). cbn [bind].
  destruct ((r_at r0 <? at_) && (at_ <=? r_at rl)) eqn:E; [lia |].
  reflexivity.
Qed.

(** The annual figure of a field, by its steps. *)
Lemma annual_unfold d energy :
  average_annual_consumption ts d energy
  = (ds <- usage_dates d ;;
     start <- getitem ds 0 ;;
     end_ <- add_days start 365 ;;
     at_start <- reading ts d start energy ;;
     at_end <- reading ts d end_ energy ;;
     sub at_end at_start).
Proof. destruct energy; reflexivity. Qed.

(** With two days or more after the first reading, and a year after the
    second of them in the calendar, the annual figure starts at that
    second day. *)
Lemma annual_from_second_day d r0 rl energy :
  getitem (readings d) 0 = Ok r0 ->
  getitem (readings d) (-1) = Ok rl ->
  date_min - 1 <= r_at r0 -> r_at rl < date_max ->
  r_at r0 + 2 <= r_at rl ->
  r_at r0 + 2 + 365 <= date_max ->
  average_annual_consumption ts d energy
  = (at_start <- reading ts d (r_at r0 + 2) energy ;;
     at_end <- reading ts d (r_at r0 + 2 + 365) energy ;;
     sub at_end at_start).
Proof.
  intros H0 Hl Hmin Hmax Hspan Hyear.
  assert (E : Z.to_nat (r_at rl - r_at r0 - 1)
              = S (Z.to_nat (r_at rl - r_at r0 - 2))) by lia.
  rewrite annual_unfold.
  rewrite (usage_dates_days _ _ _ H0 Hl) by lia.
  rewrite E. cbn [bind days]. rewrite getitem_head. cbn [bind].
  rewrite add_days_ok by lia. reflexivity.
Qed.

(** With two days or more after the first reading, but no date a year
    after the second of them, the annual figure raises on that step. *)
Lemma annual_no_year d r0 rl energy :
  getitem (readings d) 0 = Ok r0 ->
  getitem (readings d) (-1) = Ok rl ->
  date_min - 1 <= r_at r0 -> r_at rl < date_max ->
  r_at r0 + 2 <= r_at rl ->
  date_max < r_at r0 + 2 + 365 ->
  average_annual_consumption ts d energy = Err OverflowError.
Proof.
  intros H0 Hl Hmin Hmax Hspan Hyear.
  assert (E : Z.to_nat (r_at rl - r_at r0 - 1)
              = S (Z.to_nat (r_at rl - r_at r0 - 2))) by lia.
  rewrite annual_unfold.
  rewrite (usage_dates_days _ _ _ H0 Hl) by lia.
  rewrite E. cbn [bind days]. rewrite getitem_head. cbn [bind].
  rewrite add_days_overflow by lia. reflexivity.
Qed.

(** With one day or none after the first reading there is no usage date,
    and the annual figure fails on [usage_dates[0]]. *)
Lemma annual_no_usage_date d r0 rl energy :
  getitem (readings d) 0 = Ok r0 ->
  getitem (readings d) (-1) = Ok rl ->
  date_min - 1 <= r_at r0 < date_max -> r_at rl < date_max ->
  r_at rl <= r_at r0 + 1 ->
  average_annual_consumption ts d energy = Err IndexError.
Proof.
  intros H0 Hl Hmin Hmax Hspan.
  assert (E : Z.to_nat (r_at rl - r_at r0 - 1) = O) by lia.
  rewrite annual_unfold.
  rewrite (usage_dates_days _ _ _ H0 Hl) by lia.
  rewrite E. cbn [bind days]. rewrite getitem_nil. reflexivity.
Qed.

(** With the first or the last reading on [date.max] the annual figure
    raises with [dates]. *)
Lemma annual_dates_overflow d r0 rl energy :
  getitem (readings d) 0 = Ok r0 ->
  getitem (readings d) (-1) = Ok rl ->
  r_at r0 <= date_max -> r_at rl <= date_max ->
  r_at r0 = date_max \/ r_at rl = date_max ->
  average_annual_consumption ts d energy = Err OverflowError.
Proof.
  intros H0 Hl Hr0 Hrl Hmax. rewrite annual_unfold. unfold usage_dates.
  rewrite (dates_overflow d r0 rl H0 Hl Hr0 Hrl Hmax). reflexivity.
Qed.

(** The filter both weather loops compute. *)
Lemma weather_loop_filter (T : Type) (f : Weather A -> T) d r0 rl :
  getitem (readings d) 0 = Ok r0 ->
  getitem (readings d) (-1) = Ok rl ->
  forall ws,
    weather_loop f d ws
    = Ok (map f (filter (fun w => (r_at r0 <=? w_at w) && (w_at w <=? r_at rl))
                        ws)).
Proof.
  intros H0 Hl. induction ws as [| w ws IH]; [reflexivity |].
  cbn [weather_loop filter].
  rewrite (covers_ends false _ _ _ _ H0 Hl), IH. cbn [bind].
  destruct ((r_at r0 <=? w_at w) && (w_at w <=? r_at rl)); reflexivity.
Qed.

(** On any store whose dates have ascending timestamps, a lookup inside the
    dates does not fail on its assertion, its search, its indices, its
    timestamps or its division: the overflow of a conversion is all that is
    left. *)
Lemma reading_inside_error_any lo hi d r0 rl at_ energy (e : exn) :
  increasing ts lo hi ->
  within lo hi (readings d) = true ->
  getitem (readings d) 0 = Ok r0 ->
  getitem (readings d) (-1) = Ok rl ->
  r_at r0 <= at_ <= r_at rl ->
  reading ts d at_ energy = Err e -> e = OverflowError.
Proof.
  intros Hts Hw H0 Hl Hin.
  destruct (Z.eq_dec at_ (r_at r0)) as [-> | Hne].
  - rewrite (reading_at_first d r0 rl energy H0 Hl) by lia. discriminate.
  - destruct (reading_bracket d r0 rl at_ energy H0 Hl)
      as (l1 & p & s & l2 & E & _ & Hb & ->); [lia |].
    assert (Hp : lo <= r_at p <= hi).
    { apply (within_In _ _ _ _ Hw). rewrite E. apply in_or_app. right.
      now left. }
    assert (Hs : lo <= r_at s <= hi).
    { apply (within_In _ _ _ _ Hw). rewrite E. apply in_or_app. right.
      right. now left. }
    destruct (interpolated_timestamps lo hi p s at_ energy Hts)
      as (first & second & current & _ & _ & _ & Hlt & ->); try lia.
    apply interpolate_error. lia.
Qed.

(** The same inside the dates of an ascending store, for timestamps that
    ascend from its first date to its last. *)
Lemma reading_inside_error d r0 rl at_ energy (e : exn) :
  increasing ts (r_at r0) (r_at rl) ->
  ascending (readings d) = true ->
  getitem (readings d) 0 = Ok r0 ->
  getitem (readings d) (-1) = Ok rl ->
  r_at r0 <= at_ <= r_at rl ->
  reading ts d at_ energy = Err e -> e = OverflowError.
Proof.
  intros Hts Hasc H0 Hl.
  apply reading_inside_error_any with (lo := r_at r0) (hi := r_at rl);
    try assumption.
  now apply ascending_within.
Qed.

End Lookup.

(** UTC midnights are there after [date.min], and ascend with the dates. *)
Lemma ts_utc_increasing (lo hi : date) : date_min < lo -> increasing ts_utc lo hi.
Proof.
  intros Hlo. split.
  - intros a Ha. unfold ts_utc.
    destruct (a <=? date_min) eqn:E; [lia |]. now eexists.
  - intros a b ta tb Ha Hab Hb. unfold ts_utc.
    destruct (a <=? date_min) eqn:Ea; [lia |].
    destruct (b <=? date_min) eqn:Eb; [lia |].
    intros [= <-] [= <-]. lia.
Defined.

(** ** The properties of the specification *)

(** *** The scenarios of the specification, run on the embedding *)

(** Linear share: between (2020-01-01, 1000, 100.0) and (2020-02-01, 1100,
    120.0), the lookup on 2020-01-16 gives 1048.3870967741937 and
    109.6774193548387. *)
Example linear_share :
  reading ts_utc jan_feb 737440 Electricity
  = Ok (Float (A := binary64) 0x1.0618c6318c632p+10%float)
  /\ reading ts_utc jan_feb 737440 Gas
     = Ok (Float (A := binary64) 0x1.b6b5ad6b5ad6bp+6%float).
Proof. split; reflexivity. Qed.

(** The usage of that day is 3.2258064516129252, about 100/31. *)
Example usage_of_a_day :
  usage ts_utc jan_feb 737440 Electricity
  = Ok (Float (A := binary64) 0x1.9ce739ce73a00p+1%float).
Proof. reflexivity. Qed.

(** Thirty usage dates, each with its electricity and its gas usage. *)
Example usages_per_usage_date :
  exists ds es gs,
    usage_dates jan_feb = Ok ds
    /\ electricity_usages ts_utc jan_feb = Ok es
    /\ gas_usages ts_utc jan_feb = Ok gs
    /\ length ds = 30%nat /\ length es = 30%nat /\ length gs = 30%nat.
Proof. do 3 eexists. repeat split; reflexivity. Qed.

(** A store of one reading has no usage date; the annual figures fail on
    the index and nothing is printed. *)
Example single_reading :
  usage_dates one_reading = Ok []
  /\ annual_report ts_utc one_reading = ([], Some IndexError).
Proof. split; reflexivity. Qed.

(** At the end of 2011 in Pacific/Apia two days in a row have the same
    midnight, and the lookup at the second divides by zero. *)
Example skipped_day :
  ts_apia 734501 = ts_apia 734502
  /\ reading ts_apia end_of_2011 734502 Electricity = Err ZeroDivisionError.
Proof. split; reflexivity. Qed.

(** C1 as the specification states it, refuted twice.  On the store of
    2020-01-01 and 2020-02-01 the usage dates are not the 31 days from the
    day after the first reading.  On the store of 9999-12-01 and 9999-12-31
    there is no sequence of usage dates: the date loop raises. *)
Lemma usage_dates_not_from_first_day :
  ~ (exists ds, usage_dates jan_feb = Ok ds
                /\ length ds = Z.to_nat (737456 - 737425)
                /\ nth_error ds 0 = Some (737425 + 1))
  /\ ~ (exists ds, usage_dates december_9999 = Ok ds).
Proof.
  split.
  - intros (ds & H & Hlen & _). vm_compute in H. injection H as <-.
    discriminate Hlen.
  - intros (ds & H). vm_compute in H. discriminate H.
Qed.

(** C1, amended.  With [first] and [last] the first and the last reading of
    a store, neither on [date.max]: [dates] has one entry per day from the
    day after [first.at] to [last.at], that is [(last.at - first.at).days]
    entries; [usage_dates] is [dates] without its first entry, so it has one
    entry less (none when the store spans less than two days), one per
    calendar day from the second day after [first.at] to [last.at]
    inclusive, strictly ascending, with no duplicates and no gaps.  With
    [first] or [last] on [date.max], both raise [OverflowError]. *)
Theorem usage_dates_dense (A : Arith) (d : Data A) (r0 rl : Reading A) :
  getitem (readings d) 0 = Ok r0 ->
  getitem (readings d) (-1) = Ok rl ->
  calendar (r_at r0) -> calendar (r_at rl) ->
  (r_at r0 < date_max -> r_at rl < date_max ->
   exists all ds,
     dates d = Ok all /\ usage_dates d = Ok ds /\ ds = tl all
     /\ Z.of_nat (length all) = Z.max 0 (r_at rl - r_at r0)
     /\ (forall x, In x all <-> r_at r0 + 1 <= x <= r_at rl)
     /\ Z.of_nat (length ds) = Z.max 0 (r_at rl - r_at r0 - 1)
     /\ (forall x, In x ds <-> r_at r0 + 2 <= x <= r_at rl)
     /\ (forall i, (i < length ds)%nat ->
                   nth_error ds i = Some (r_at r0 + 2 + Z.of_nat i))
     /\ StronglySorted Z.lt ds
     /\ NoDup ds)
  /\ (r_at r0 = date_max \/ r_at rl = date_max ->
      dates d = Err OverflowError /\ usage_dates d = Err OverflowError).
Proof.
  intros H0 Hl [Hmin0 Hmax0] [Hminl Hmaxl]. split.
  - intros Hr0 Hrl.
    exists (days (r_at r0 + 1) (Z.to_nat (r_at rl - r_at r0))),
      (days (r_at r0 + 2) (Z.to_nat (r_at rl - r_at r0 - 1))).
    split; [apply (dates_days d r0 rl H0 Hl); lia |].
    split; [apply (usage_dates_days d r0 rl H0 Hl); lia |].
    split; [rewrite days_tl; f_equal; lia |].
    rewrite !days_length.
    split; [lia |].
    split; [intros x; rewrite days_In; lia |].
    split; [lia |].
    split; [intros x; rewrite days_In; lia |].
    split; [intros i Hi; now apply days_nth |].
    split; [apply days_sorted | apply days_NoDup].
  - intros Hmax.
    pose proof (dates_overflow d r0 rl H0 Hl Hmax0 Hmaxl Hmax) as E.
    split; [exact E |]. unfold usage_dates. now rewrite E.
Qed.

Lemma usage_dates_dense_witness :
  getitem (readings jan_feb) 0 = Ok (reading64 737425 1000 100)
  /\ getitem (readings jan_feb) (-1) = Ok (reading64 737456 1100 120)
  /\ calendar 737425 /\ calendar 737456
  /\ 737425 < date_max /\ 737456 < date_max
  /\ exists all ds,
       dates jan_feb = Ok all /\ usage_dates jan_feb = Ok ds
       /\ Z.of_nat (length all) = 31 /\ Z.of_nat (length ds) = 30
       /\ nth_error ds 0 = Some 737427.
Proof.
  assert (C0 : calendar 737425) by (split; discriminate).
  assert (Cl : calendar 737456) by (split; discriminate).
  assert (M0 : 737425 < date_max) by reflexivity.
  assert (Ml : 737456 < date_max) by reflexivity.
  split; [reflexivity |]. split; [reflexivity |].
  split; [exact C0 |]. split; [exact Cl |].
  split; [exact M0 |]. split; [exact Ml |].
  destruct (usage_dates_dense binary64 jan_feb
              (reading64 737425 1000 100) (reading64 737456 1100 120)
              eq_refl eq_refl C0 Cl) as [H _].
  destruct (H M0 Ml)
    as (all & ds & Hall & Hds & _ & Hlen & _ & Hlen' & _ & Hnth & _).
  exists all, ds.
  split; [exact Hall |]. split; [exact Hds |].
  split; [rewrite Hlen; reflexivity |].
  split; [rewrite Hlen'; reflexivity |].
  apply (Hnth O). apply Nat2Z.inj_lt. rewrite Hlen'. reflexivity.
Defined.

(** C2 as the specification states it, refuted twice.  On a store of three
    readings over 500 days, the annual electricity figure is not the
    difference of the lookups at the day after the first reading and 365
    days later.  On a store of a hundred days in the summer of 9999 the
    figure is not a difference of two lookups at all, from whichever day:
    the date 365 days after its start does not exist, and the figure raises
    [OverflowError] where the lookup would fail its assertion. *)
Lemma annual_not_from_first_day :
  average_annual_consumption ts_utc two_rates Electricity
  <> (at_start <- reading ts_utc two_rates (737425 + 1) Electricity ;;
      at_end <- reading ts_utc two_rates (737425 + 1 + 365) Electricity ;;
      sub at_end at_start)
  /\ (forall start,
        start = 3651900 + 1 \/ start = 3651900 + 2 ->
        average_annual_consumption ts_utc summer_9999 Electricity
        <> (at_start <- reading ts_utc summer_9999 start Electricity ;;
            at_end <- reading ts_utc summer_9999 (start + 365) Electricity ;;
            sub at_end at_start)).
Proof.
  split.
  - intros H.
    apply (f_equal (fun r : result (num binary64) =>
                      match r with
                      | Ok (Float f) => PrimFloat.eqb f 697.5%float
                      | _ => false
                      end)) in H.
    vm_compute in H. discriminate H.
  - intros start Hstart H.
    apply (f_equal (fun r : result (num binary64) =>
                      match r with
                      | Err OverflowError => true
                      | _ => false
                      end)) in H.
    destruct Hstart as [-> | ->]; vm_compute in H; discriminate H.
Qed.

(** C2, amended.  When the store spans two days or more and its last
    reading is before [date.max], the first usage date, [start], is the
    second day after the first reading's date.  When [start + 365] days is
    a date of the calendar, the annual figure of each field is computed as
    the lookup at [start + 365] days minus the lookup at [start], the lookup
    at [start] first: it fails as they fail.  When it is not, or when the
    last reading is on [date.max], the figure raises [OverflowError]. *)
Theorem annual_estimate (A : Arith) (ts : date -> result Z) (d : Data A)
  (r0 rl : Reading A) :
  getitem (readings d) 0 = Ok r0 ->
  getitem (readings d) (-1) = Ok rl ->
  calendar (r_at r0) -> calendar (r_at rl) ->
  r_at r0 + 2 <= r_at rl ->
  (r_at rl < date_max ->
   (exists ds, usage_dates d = Ok ds /\ getitem ds 0 = Ok (r_at r0 + 2))
   /\ (r_at r0 + 2 + 365 <= date_max ->
       forall energy,
         average_annual_consumption ts d energy
         = (at_start <- reading ts d (r_at r0 + 2) energy ;;
            at_end <- reading ts d (r_at r0 + 2 + 365) energy ;;
            sub at_end at_start))
   /\ (date_max < r_at r0 + 2 + 365 ->
       forall energy,
         average_annual_consumption ts d energy = Err OverflowError))
  /\ (r_at rl = date_max ->
      usage_dates d = Err OverflowError
      /\ forall energy,
           average_annual_consumption ts d energy = Err OverflowError).
Proof.
  intros H0 Hl [Hmin0 Hmax0] [Hminl Hmaxl] Hspan. split.
  - intros Hrl. split; [| split].
    + exists (days (r_at r0 + 2) (Z.to_nat (r_at rl - r_at r0 - 1))).
      split; [apply (usage_dates_days d r0 rl H0 Hl); lia |].
      replace (Z.to_nat (r_at rl - r_at r0 - 1))
        with (S (Z.to_nat (r_at rl - r_at r0 - 2))) by lia.
      apply getitem_head.
    + intros Hyear energy.
      apply annual_from_second_day with (rl := rl); try assumption; lia.
    + intros Hyear energy.
      apply annual_no_year with (r0 := r0) (rl := rl); try assumption; lia.
  - intros Hrl.
    pose proof (dates_overflow d r0 rl H0 Hl Hmax0 Hmaxl (or_intror Hrl)) as E.
    split; [unfold usage_dates; now rewrite E |].
    intros energy.
    apply annual_dates_overflow with (r0 := r0) (rl := rl); try assumption.
    now right.
Qed.

Lemma annual_estimate_witness :
  getitem (readings two_rates) 0 = Ok (reading64 737425 0 0)
  /\ getitem (readings two_rates) (-1) = Ok (reading64 737925 1000 100)
  /\ calendar 737425 /\ calendar 737925
  /\ 737425 + 2 <= 737925
  /\ 737925 < date_max
  /\ 737425 + 2 + 365 <= date_max
  /\ average_annual_consumption ts_utc two_rates Electricity
     = Ok (Float (A := binary64) 698.75%float).
Proof.
  assert (C0 : calendar 737425) by (split; discriminate).
  assert (Cl : calendar 737925) by (split; discriminate).
  assert (Hspan : 737425 + 2 <= 737925) by discriminate.
  assert (Ml : 737925 < date_max) by reflexivity.
  assert (Hyear : 737425 + 2 + 365 <= date_max) by discriminate.
  split; [reflexivity |]. split; [reflexivity |].
  split; [exact C0 |]. split; [exact Cl |]. split; [exact Hspan |].
  split; [exact Ml |]. split; [exact Hyear |].
  destruct (annual_estimate binary64 ts_utc two_rates
              (reading64 737425 0 0) (reading64 737925 1000 100)
              eq_refl eq_refl C0 Cl Hspan) as [H _].
  destruct (H Ml) as (_ & Heq & _).
  rewrite (Heq Hyear Electricity). reflexivity.
Defined.

(** C3 as the specification states it, refuted twice.  On the store of
    sixty days the annual figure fails, and its failure is the one of a
    lookup before the first reading; nothing tells the two apart.  On the
    store of a hundred days in the summer of 9999 the failure is not
    reported as insufficient data: an [OverflowError] leaves the block. *)
Lemma insufficient_data_is_range_violation :
  ~ (exists e, average_annual_consumption ts_utc sixty_days Electricity = Err e
               /\ Err e <> reading ts_utc sixty_days (737425 - 1) Electricity)
  /\ ~ In InsufficientData (fst (annual_report ts_utc summer_9999))
  /\ snd (annual_report ts_utc summer_9999) = Some OverflowError.
Proof.
  split; [| split].
  - intros (e & H & Hne). apply Hne. rewrite <- H. reflexivity.
  - intros H. vm_compute in H. exact H.
  - reflexivity.
Qed.

(** C3, amended.  The store spans two days or more, and [start + 365] days,
    with [start] the second day after the first reading's date, is after the
    last reading's date.  When [start + 365] days is a date of the calendar,
    the lookup there fails on the range assertion of [reading], the failure
    of any lookup outside the store: the estimator has no failure of its
    own.  Where the lookup at [start] returns a value, this [AssertionError]
    is what the annual figure raises; the module-level handler catches it
    and prints the insufficient-data line, and no figure.  When
    [start + 365] days is no date of the calendar, the annual figure raises
    [OverflowError], the handler does not catch it, and nothing is
    printed. *)
Theorem annual_insufficient_data (A : Arith) (ts : date -> result Z)
  (d : Data A) (r0 rl : Reading A) :
  getitem (readings d) 0 = Ok r0 ->
  getitem (readings d) (-1) = Ok rl ->
  calendar (r_at r0) -> calendar (r_at rl) ->
  r_at r0 + 2 <= r_at rl < r_at r0 + 2 + 365 ->
  (r_at r0 + 2 + 365 <= date_max ->
   (forall energy,
      reading ts d (r_at r0 + 2 + 365) energy = Err AssertionError
      /\ reading ts d (r_at r0 - 1) energy = Err AssertionError
      /\ forall v, reading ts d (r_at r0 + 2) energy = Ok v ->
                   average_annual_consumption ts d energy = Err AssertionError)
   /\ forall v, reading ts d (r_at r0 + 2) Electricity = Ok v ->
                annual_report ts d = ([InsufficientData], None))
  /\ (date_max < r_at r0 + 2 + 365 ->
      (forall energy,
         average_annual_consumption ts d energy = Err OverflowError)
      /\ annual_report ts d = ([], Some OverflowError)).
Proof.
  intros H0 Hl [Hmin0 Hmax0] [Hminl Hmaxl] Hspan. split.
  - intros Hyear.
    assert (Hend : forall energy,
               reading ts d (r_at r0 + 2 + 365) energy = Err AssertionError)
      by (intros energy; apply reading_outside with (r0 := r0) (rl := rl);
          [assumption | assumption | lia]).
    assert (Hfig : forall energy v,
               reading ts d (r_at r0 + 2) energy = Ok v ->
               average_annual_consumption ts d energy = Err AssertionError).
    { intros energy v Hv.
      rewrite (annual_from_second_day ts d r0 rl energy H0 Hl) by lia.
      rewrite Hv, Hend. reflexivity. }
    split.
    + intros energy. split; [apply Hend |]. split; [| apply Hfig].
      apply reading_outside with (r0 := r0) (rl := rl); [assumption .. | lia].
    + intros v Hv. unfold annual_report.
      change (average_annual_electricity_consumption ts d)
        with (average_annual_consumption ts d Electricity).
      rewrite (Hfig Electricity v Hv). reflexivity.
  - intros Hyear.
    assert (Hfig : forall energy,
               average_annual_consumption ts d energy = Err OverflowError).
    { intros energy. destruct (Z.eq_dec (r_at rl) date_max) as [E | Hne].
      - apply annual_dates_overflow with (r0 := r0) (rl := rl);
          try assumption. now right.
      - apply annual_no_year with (r0 := r0) (rl := rl); try assumption; lia. }
    split; [exact Hfig |]. unfold annual_report.
    change (average_annual_electricity_consumption ts d)
      with (average_annual_consumption ts d Electricity).
    now rewrite Hfig.
Qed.

Lemma annual_insufficient_data_witness :
  getitem (readings sixty_days) 0 = Ok (reading64 737425 1000 100)
  /\ getitem (readings sixty_days) (-1) = Ok (reading64 737485 1300 160)
  /\ calendar 737425 /\ calendar 737485
  /\ 737425 + 2 <= 737485 < 737425 + 2 + 365
  /\ 737425 + 2 + 365 <= date_max
  /\ reading ts_utc sixty_days (737425 + 2) Electricity
     = Ok (Float (A := binary64) 1010%float)
  /\ annual_report ts_utc sixty_days = ([InsufficientData], None).
Proof.
  assert (C0 : calendar 737425) by (split; discriminate).
  assert (Cl : calendar 737485) by (split; discriminate).
  assert (Hspan : 737425 + 2 <= 737485 < 737425 + 2 + 365)
    by (split; [discriminate | reflexivity]).
  assert (Hyear : 737425 + 2 + 365 <= date_max) by discriminate.
  split; [reflexivity |]. split; [reflexivity |].
  split; [exact C0 |]. split; [exact Cl |]. split; [exact Hspan |].
  split; [exact Hyear |]. split; [reflexivity |].
  destruct (annual_insufficient_data binary64 ts_utc sixty_days
              (reading64 737425 1000 100) (reading64 737485 1300 160)
              eq_refl eq_refl C0 Cl Hspan) as [H _].
  destruct (H Hyear) as [_ Hreport].
  apply (Hreport (Float (A := binary64) 1010%float)).
  reflexivity.
Defined.

(** C5.  In a store that keeps the invariants, for every field: at a date
    after the first reading's and up to the last reading's, [usage] is the
    lookup at that date minus the lookup at the day before (and, with
    timestamps that ascend over the dates of the store, it can fail only
    where a conversion overflows); at any other date [usage] fails with the
    range assertion. *)
Theorem usage_difference (A : Arith) (ts : date -> result Z) (d : Data A)
  (r0 rl : Reading A) (at_ : date) (energy : Energy) :
  store_invariant d ->
  getitem (readings d) 0 = Ok r0 ->
  getitem (readings d) (-1) = Ok rl ->
  (r_at r0 < at_ <= r_at rl ->
   usage ts d at_ energy
   = (today <- reading ts d at_ energy ;;
      yesterday <- reading ts d (at_ - 1) energy ;;
      sub today yesterday)
   /\ (increasing ts (r_at r0) (r_at rl) ->
       forall e, usage ts d at_ energy = Err e -> e = OverflowError))
  /\ (~ r_at r0 < at_ <= r_at rl ->
      usage ts d at_ energy = Err AssertionError).
Proof.
  intros Hinv H0 Hl.
  destruct (store_invariant_ends d r0 rl Hinv H0 Hl) as ([Hmin _] & [_ Hmax] & _).
  destruct Hinv as (_ & Hasc & _). split.
  - intros Hin.
    assert (E : usage ts d at_ energy
                = (today <- reading ts d at_ energy ;;
                   yesterday <- reading ts d (at_ - 1) energy ;;
                   sub today yesterday))
      by (apply usage_inside with (r0 := r0) (rl := rl); try assumption; lia).
    split; [exact E |]. rewrite E. intros Hts e.
    destruct (reading ts d at_ energy) as [today | e1] eqn:E1; cbn [bind].
    + destruct (reading ts d (at_ - 1) energy) as [yesterday | e2] eqn:E2;
        cbn [bind].
      * apply binop_error.
      * intros [= <-].
        apply (reading_inside_error ts d r0 rl (at_ - 1) energy e2
                 Hts Hasc H0 Hl); [lia | exact E2].
    + intros [= <-].
      apply (reading_inside_error ts d r0 rl at_ energy e1
               Hts Hasc H0 Hl); [lia | exact E1].
  - intros Hout. now apply usage_outside with (r0 := r0) (rl := rl).
Qed.

Lemma usage_difference_witness :
  store_invariant jan_feb
  /\ getitem (readings jan_feb) 0 = Ok (reading64 737425 1000 100)
  /\ getitem (readings jan_feb) (-1) = Ok (reading64 737456 1100 120)
  /\ 737425 < 737440 <= 737456
  /\ usage ts_utc jan_feb 737440 Electricity
     = (today <- reading ts_utc jan_feb 737440 Electricity ;;
        yesterday <- reading ts_utc jan_feb (737440 - 1) Electricity ;;
        sub today yesterday)
  /\ ~ 737425 < 737425 <= 737456
  /\ usage ts_utc jan_feb 737425 Electricity = Err AssertionError.
Proof.
  assert (Hinv : store_invariant jan_feb)
    by (split; [discriminate | split; reflexivity]).
  assert (Hin : 737425 < 737440 <= 737456)
    by (split; [reflexivity | discriminate]).
  assert (Hout : ~ 737425 < 737425 <= 737456)
    by (intros [H _]; discriminate H).
  pose proof (usage_difference binary64 ts_utc jan_feb
                (reading64 737425 1000 100) (reading64 737456 1100 120)
                737440 Electricity Hinv eq_refl eq_refl)
    as [H _].
  pose proof (usage_difference binary64 ts_utc jan_feb
                (reading64 737425 1000 100) (reading64 737456 1100 120)
                737425 Electricity Hinv eq_refl eq_refl)
    as [_ H'].
  destruct (H Hin) as [Husage _].
  split; [exact Hinv |].
  split; [reflexivity |]. split; [reflexivity |]. split; [exact Hin |].
  split; [exact Husage |]. split; [exact Hout |].
  exact (H' Hout).
Defined.

(** C6.  For a store with a reading, the aligned dates and the aligned air
    means are the dates and the air means of one list: the weather entries
    dated from the first reading's date to the last reading's date, both
    included, in the order of the input and with their values as they
    are. *)
Theorem weather_alignment (A : Arith) (d : Data A) (r0 rl : Reading A) :
  getitem (readings d) 0 = Ok r0 ->
  getitem (readings d) (-1) = Ok rl ->
  exists ws,
    ws = filter (fun w => (r_at r0 <=? w_at w) && (w_at w <=? r_at rl))
                (weathers d)
    /\ temperature_dates d = Ok (map w_at ws)
    /\ air_means d = Ok (map air_mean ws)
    /\ (forall w, In w ws <-> In w (weathers d)
                              /\ r_at r0 <= w_at w <= r_at rl)
    /\ length (map w_at ws) = length (map air_mean ws).
Proof.
  intros H0 Hl. eexists. split; [reflexivity |].
  split; [apply weather_loop_filter; assumption |].
  split; [apply weather_loop_filter; assumption |].
  split.
  - intros w. rewrite filter_In. split; intros [Hin Hb]; (split; [exact Hin | lia]).
  - now rewrite !length_map.
Qed.

Lemma weather_alignment_witness :
  getitem (readings jan_feb) 0 = Ok (reading64 737425 1000 100)
  /\ getitem (readings jan_feb) (-1) = Ok (reading64 737456 1100 120)
  /\ temperature_dates jan_feb = Ok [737439]
  /\ air_means jan_feb = Ok [6.5%float].
Proof.
  split; [reflexivity |]. split; [reflexivity |].
  destruct (weather_alignment binary64 jan_feb
              (reading64 737425 1000 100) (reading64 737456 1100 120)
              eq_refl eq_refl) as (ws & -> & Hdates & Hmeans & _).
  split; [exact Hdates | exact Hmeans].
Defined.

(** C8.  For a store with a reading and for both fields, the lookup at the
    day before the first reading's date and the lookup at the day after the
    last reading's date fail with the range assertion. *)
Theorem boundary_rejection (A : Arith) (ts : date -> result Z) (d : Data A)
  (r0 rl : Reading A) (energy : Energy) :
  getitem (readings d) 0 = Ok r0 ->
  getitem (readings d) (-1) = Ok rl ->
  reading ts d (r_at r0 - 1) energy = Err AssertionError
  /\ reading ts d (r_at rl + 1) energy = Err AssertionError.
Proof.
  intros H0 Hl.
  split; apply reading_outside with (r0 := r0) (rl := rl);
    try assumption; lia.
Qed.

Lemma boundary_rejection_witness :
  getitem (readings jan_feb) 0 = Ok (reading64 737425 1000 100)
  /\ getitem (readings jan_feb) (-1) = Ok (reading64 737456 1100 120)
  /\ reading ts_utc jan_feb (737425 - 1) Gas = Err AssertionError
  /\ reading ts_utc jan_feb (737456 + 1) Gas = Err AssertionError.
Proof.
  split; [reflexivity |]. split; [reflexivity |].
  exact (boundary_rejection binary64 ts_utc jan_feb
           (reading64 737425 1000 100) (reading64 737456 1100 120) Gas
           eq_refl eq_refl).
Defined.

(** C10 as stated, refuted: a store of one reading on 9999-12-31 spans at
    most one day, but it has no empty sequence of usage dates and its
    annual figure does not fail on an index: the day after the reading does
    not exist, and both raise [OverflowError]. *)
Lemma no_usage_dates_at_the_end :
  usage_dates last_day <> Ok []
  /\ average_annual_consumption ts_utc last_day Electricity <> Err IndexError
  /\ annual_report ts_utc last_day = ([], Some OverflowError).
Proof.
  split; [| split].
  - intros H. vm_compute in H. discriminate H.
  - intros H.
    apply (f_equal (fun r : result (num binary64) =>
                      match r with
                      | Err OverflowError => true
                      | _ => false
                      end)) in H.
    vm_compute in H. discriminate H.
  - reflexivity.
Qed.

(** C10, amended.  The last reading's date is at most one day after the
    first reading's (a store of one reading included).  When neither is on
    [date.max], there is no usage date, and each annual figure fails with
    [IndexError] on [usage_dates[0]]: it is not the [AssertionError] of the
    range assertion, the module-level handler does not catch it, and nothing
    is printed.  When one of them is on [date.max], the usage dates and the
    annual figures raise [OverflowError], which the handler does not catch
    either. *)
Theorem annual_without_usage_dates (A : Arith) (ts : date -> result Z)
  (d : Data A) (r0 rl : Reading A) :
  getitem (readings d) 0 = Ok r0 ->
  getitem (readings d) (-1) = Ok rl ->
  calendar (r_at r0) -> calendar (r_at rl) ->
  r_at rl <= r_at r0 + 1 ->
  (r_at r0 < date_max -> r_at rl < date_max ->
   usage_dates d = Ok []
   /\ (forall energy,
         average_annual_consumption ts d energy = Err IndexError
         /\ average_annual_consumption ts d energy
            <> reading ts d (r_at r0 - 1) energy)
   /\ IndexError <> AssertionError
   /\ annual_report ts d = ([], Some IndexError))
  /\ (r_at r0 = date_max \/ r_at rl = date_max ->
      usage_dates d = Err OverflowError
      /\ (forall energy,
            average_annual_consumption ts d energy = Err OverflowError)
      /\ annual_report ts d = ([], Some OverflowError)).
Proof.
  intros H0 Hl [Hmin0 Hmax0] [Hminl Hmaxl] Hspan. split.
  - intros Hr0 Hrl.
    assert (Hfig : forall energy,
               average_annual_consumption ts d energy = Err IndexError)
      by (intros energy;
          apply annual_no_usage_date with (r0 := r0) (rl := rl);
          try assumption; lia).
    split.
    { rewrite (usage_dates_days d r0 rl H0 Hl) by lia.
      now replace (Z.to_nat (r_at rl - r_at r0 - 1)) with O by lia. }
    split.
    { intros energy. split; [apply Hfig |].
      rewrite Hfig, (reading_outside ts d r0 rl (r_at r0 - 1) energy H0 Hl)
        by lia.
      discriminate. }
    split; [discriminate |].
    unfold annual_report.
    change (average_annual_electricity_consumption ts d)
      with (average_annual_consumption ts d Electricity).
    now rewrite Hfig.
  - intros Hmax.
    pose proof (dates_overflow d r0 rl H0 Hl Hmax0 Hmaxl Hmax) as E.
    assert (Hfig : forall energy,
               average_annual_consumption ts d energy = Err OverflowError)
      by (intros energy;
          now apply annual_dates_overflow with (r0 := r0) (rl := rl)).
    split; [unfold usage_dates; now rewrite E |].
    split; [exact Hfig |]. unfold annual_report.
    change (average_annual_electricity_consumption ts d)
      with (average_annual_consumption ts d Electricity).
    now rewrite Hfig.
Qed.

Lemma annual_without_usage_dates_witness :
  getitem (readings two_days) 0 = Ok (reading64 737425 1000 100)
  /\ getitem (readings two_days) (-1) = Ok (reading64 737426 1003 101)
  /\ calendar 737425 /\ calendar 737426
  /\ 737426 <= 737425 + 1
  /\ 737425 < date_max /\ 737426 < date_max
  /\ usage_dates two_days = Ok []
  /\ annual_report ts_utc two_days = ([], Some IndexError).
Proof.
  assert (C0 : calendar 737425) by (split; discriminate).
  assert (Cl : calendar 737426) by (split; discriminate).
  assert (Hspan : 737426 <= 737425 + 1) by discriminate.
  assert (M0 : 737425 < date_max) by reflexivity.
  assert (Ml : 737426 < date_max) by reflexivity.
  split; [reflexivity |]. split; [reflexivity |].
  split; [exact C0 |]. split; [exact Cl |]. split; [exact Hspan |].
  split; [exact M0 |]. split; [exact Ml |].
  destruct (annual_without_usage_dates binary64 ts_utc two_days
              (reading64 737425 1000 100) (reading64 737426 1003 101)
              eq_refl eq_refl C0 Cl Hspan) as [H _].
  destruct (H M0 Ml) as (Hdates & _ & _ & Hreport).
  split; [exact Hdates | exact Hreport].
Defined.

(** ** Stored dates *)

(** Two readings that follow each other have ascending dates. *)
Lemma consecutive_lt {A : Arith} (d : Data A) (p s : Reading A) :
  ascending (readings d) = true -> consecutive d p s -> r_at p < r_at s.
Proof.
  intros Hasc (l1 & l2 & E). rewrite E in Hasc.
  apply ascending_app_r in Hasc. cbn in Hasc. lia.
Qed.

(** Two readings that follow each other lie between the ends of the
    store. *)
Lemma consecutive_inside {A : Arith} (d : Data A) (r0 rl p s : Reading A) :
  ascending (readings d) = true ->
  getitem (readings d) 0 = Ok r0 -> getitem (readings d) (-1) = Ok rl ->
  consecutive d p s ->
  r_at r0 <= r_at p /\ r_at p < r_at s /\ r_at s <= r_at rl.
Proof.
  intros Hasc H0 Hl Hc. pose proof (consecutive_lt d p s Hasc Hc).
  destruct Hc as (l1 & l2 & E). repeat split; try assumption.
  - apply (first_le _ _ _ Hasc H0). rewrite E. apply in_or_app. right.
    now left.
  - apply (last_ge _ _ _ Hasc Hl). rewrite E. apply in_or_app. right. right.
    now left.
Qed.

(** A stored reading is the first one or has a neighbour before it. *)
Lemma stored_position {A : Arith} (d : Data A) (r : Reading A) :
  In r (readings d) ->
  getitem (readings d) 0 = Ok r \/ exists p, consecutive d p r.
Proof.
  intros Hin. apply in_split in Hin as (la & lb & E).
  destruct la as [| x la].
  - left. rewrite E. apply getitem_head.
  - right. destruct (exists_last (l := x :: la)) as (la' & p & E');
      [discriminate |].
    exists p, la', lb. rewrite E, E', <- app_assoc. reflexivity.
Qed.

(** At the date of a reading that has a neighbour before it, the lookup
    interpolates from that neighbour, over the whole interval. *)
Lemma reading_stored {A : Arith} (ts : date -> result Z) (d : Data A)
  (p r : Reading A) (energy : Energy) :
  ascending (readings d) = true ->
  consecutive d p r ->
  reading ts d (r_at r) energy = interpolated ts p r (r_at r) energy.
Proof.
  intros Hasc Hc. pose proof (consecutive_lt d p r Hasc Hc) as Hlt.
  destruct Hc as (l1 & l2 & E).
  apply (reading_between ts d l1 p r l2 (r_at r) energy Hasc E). lia.
Qed.

(** With ascending timestamps, that is an interpolation at the second of
    two different timestamps. *)
Lemma reading_stored_timestamps {A : Arith} (ts : date -> result Z)
  (d : Data A) (r0 rl p r : Reading A) (energy : Energy) :
  ascending (readings d) = true ->
  getitem (readings d) 0 = Ok r0 -> getitem (readings d) (-1) = Ok rl ->
  increasing ts (r_at r0) (r_at rl) ->
  consecutive d p r ->
  exists first second,
    ts (r_at p) = Ok first /\ ts (r_at r) = Ok second /\ first < second
    /\ reading ts d (r_at r) energy
       = interpolate first second second (get p energy) (get r energy).
Proof.
  intros Hasc H0 Hl Hts Hc.
  destruct (consecutive_inside d r0 rl p r Hasc H0 Hl Hc) as (Hp & Hpr & Hr).
  destruct (interpolated_timestamps ts (r_at r0) (r_at rl) p r (r_at r)
              energy Hts) as (first & second & current & Hf & Hs & Hcur & Hlt & E);
    try lia.
  rewrite Hs in Hcur. injection Hcur as <-.
  exists first, second. split; [exact Hf |]. split; [exact Hs |].
  split; [lia |]. now rewrite (reading_stored ts d p r energy Hasc Hc).
Qed.

(** In exact arithmetic the lookup at a stored date returns the stored
    value. *)
Lemma reading_stored_rational (ts : date -> result Z) (d : Data rational)
  (r0 rl r : Reading rational) (energy : Energy) :
  ascending (readings d) = true ->
  getitem (readings d) 0 = Ok r0 -> getitem (readings d) (-1) = Ok rl ->
  increasing ts (r_at r0) (r_at rl) ->
  In r (readings d) ->
  exists v, reading ts d (r_at r) energy = Ok v
            /\ (value v == value (get r energy))%Q.
Proof.
  intros Hasc H0 Hl Hts Hin.
  destruct (stored_position d r Hin) as [H0' | [p Hc]].
  - exists (get r energy). split; [| reflexivity].
    now apply reading_first.
  - destruct (reading_stored_timestamps ts d r0 rl p r energy Hasc H0 Hl Hts Hc)
      as (first & second & _ & _ & Hlt & ->).
    destruct (interpolate_rational first second second
                (get p energy) (get r energy)) as (v & Hv & Heq); [lia |].
    exists v. split; [exact Hv |]. rewrite Heq.
    assert (Hnz : ~ (inject_Z (second - first) == 0)%Q).
    { unfold Qeq. cbn. lia. }
    field. exact Hnz.
Qed.

(** C4 as the specification states it, refuted twice.  With gas readings
    0.3 and 0.9 the lookup at the date of the second reading does not
    return 0.9 but the next double, 0.9000000000000001.  With readings on
    2011-12-30 and 2011-12-31 and the clock of Pacific/Apia, the lookup at
    the date of the second reading returns nothing: it divides by zero. *)
Lemma stored_gas_value_drifts :
  ~ (forall r, In r (readings tenths) ->
       exists v, reading ts_utc tenths (r_at r) Gas = Ok (Float v)
                 /\ PrimFloat.eqb v (gas r) = true)
  /\ ~ (forall r, In r (readings end_of_2011) ->
          exists v, reading ts_apia end_of_2011 (r_at r) Electricity = Ok v).
Proof.
  split.
  - intros H.
    destruct (H (reading64 737456 1100 0x1.ccccccccccccdp-1))
      as (v & Hv & Heq).
    + right. now left.
    + assert (E : reading ts_utc tenths 737456 Gas
                  = Ok (Float (A := binary64) 0x1.ccccccccccccep-1%float))
        by reflexivity.
      pose proof (eq_trans (eq_sym E) Hv) as Hv'. injection Hv' as <-.
      vm_compute in Heq. discriminate Heq.
  - intros H.
    destruct (H (reading64 734502 1003 101)) as (v & Hv).
    + right. now left.
    + assert (E : reading ts_apia end_of_2011 734502 Electricity
                  = Err ZeroDivisionError) by reflexivity.
      pose proof (eq_trans (eq_sym E) Hv) as Hv'. discriminate Hv'.
Qed.

(** C4, amended.  In a store that keeps the invariants and for both fields:
    the lookup at the first reading's date returns its stored value as it
    is; the lookup at the date of a later reading [r] goes through
    [interpolate], from the reading [p] before it to [r], at the timestamp
    of [r].  Where [ts] returns on the dates from the first reading's to the
    last reading's and ascends with them: in exact arithmetic this is the
    stored value of [r], for every stored reading; in binary64 the progress
    is exactly [1.0] and the result is [p + (r - p) * 1.0], rounded at each
    operation, which need not be the stored value of [r]; it is equal to it
    for the electricity field when the two integers are ascending, from 0
    to 2^53 - 1. *)
Theorem stored_reading_lookup (ts : date -> result Z) :
  (forall (A : Arith) (d : Data A) (r0 : Reading A) (energy : Energy),
     store_invariant d ->
     getitem (readings d) 0 = Ok r0 ->
     reading ts d (r_at r0) energy = Ok (get r0 energy))
  /\ (forall (A : Arith) (d : Data A) (p r : Reading A) (energy : Energy),
        store_invariant d ->
        consecutive d p r ->
        reading ts d (r_at r) energy = interpolated ts p r (r_at r) energy)
  /\ (forall (d : Data rational) (r0 rl r : Reading rational)
             (energy : Energy),
        store_invariant d ->
        getitem (readings d) 0 = Ok r0 ->
        getitem (readings d) (-1) = Ok rl ->
        increasing ts (r_at r0) (r_at rl) ->
        In r (readings d) ->
        exists v, reading ts d (r_at r) energy = Ok v
                  /\ (value v == value (get r energy))%Q)
  /\ (forall (d : Data binary64) (r0 rl p r : Reading binary64)
             (energy : Energy),
        store_invariant d ->
        getitem (readings d) 0 = Ok r0 ->
        getitem (readings d) (-1) = Ok rl ->
        increasing ts (r_at r0) (r_at rl) ->
        consecutive d p r ->
        exists first second,
          ts (r_at p) = Ok first /\ ts (r_at r) = Ok second
          /\ first < second
          /\ truediv (A := binary64) (second - first) (second - first)
             = Ok 1%float
          /\ reading ts d (r_at r) energy
             = (delta <- sub (get r energy) (get p energy) ;;
                share <- mul delta (Float (A := binary64) 1%float) ;;
                add (get p energy) share))
  /\ (forall (d : Data binary64) (r0 rl p r : Reading binary64),
        store_invariant d ->
        getitem (readings d) 0 = Ok r0 ->
        getitem (readings d) (-1) = Ok rl ->
        increasing ts (r_at r0) (r_at rl) ->
        consecutive d p r ->
        0 <= electricity p <= electricity r ->
        electricity r < 2 ^ 53 ->
        exists f : float,
          reading ts d (r_at r) Electricity = Ok (Float (A := binary64) f)
          /\ Binary64.eq_int f (electricity r) = true).
Proof.
  split; [| split; [| split; [| split]]].
  - intros A d r0 energy (_ & Hasc & _) H0. now apply reading_first.
  - intros A d p r energy (_ & Hasc & _) Hc. now apply reading_stored.
  - intros d r0 rl r energy (_ & Hasc & _) H0 Hl Hts Hin.
    now apply reading_stored_rational with (r0 := r0) (rl := rl).
  - intros d r0 rl p r energy (_ & Hasc & _) H0 Hl Hts Hc.
    destruct (reading_stored_timestamps ts d r0 rl p r energy Hasc H0 Hl Hts Hc)
      as (first & second & Hf & Hs & Hlt & E).
    exists first, second.
    split; [exact Hf |]. split; [exact Hs |]. split; [exact Hlt |]. split.
    + unfold truediv.
      destruct (second - first =? 0) eqn:E0; [lia |].
      cbn [div_int binary64].
      rewrite Binary64Facts.int_div_self by lia. reflexivity.
    + rewrite E. apply Binary64Facts.interpolate_at_second. lia.
  - intros d r0 rl p r (_ & Hasc & _) H0 Hl Hts Hc Hpr Hr.
    destruct (reading_stored_timestamps ts d r0 rl p r Electricity
                Hasc H0 Hl Hts Hc)
      as (first & second & _ & _ & Hlt & E).
    exists (Binary64.float_of_int (electricity r)). split.
    + rewrite E. apply Binary64Facts.interpolate_int_at_second; lia.
    + apply Binary64Facts.eq_int_float_of_int. lia.
Qed.

Lemma stored_reading_lookup_witness :
  store_invariant jan_feb
  /\ getitem (readings jan_feb) 0 = Ok (reading64 737425 1000 100)
  /\ getitem (readings jan_feb) (-1) = Ok (reading64 737456 1100 120)
  /\ increasing ts_utc 737425 737456
  /\ consecutive jan_feb (reading64 737425 1000 100) (reading64 737456 1100 120)
  /\ reading ts_utc jan_feb 737456 Gas
     = (delta <- sub (Float (A := binary64) 120%float)
                     (Float (A := binary64) 100%float) ;;
        share <- mul delta (Float (A := binary64) 1%float) ;;
        add (Float (A := binary64) 100%float) share)
  /\ 0 <= 1000 <= 1100
  /\ 1100 < 2 ^ 53
  /\ (exists f : float,
        reading ts_utc jan_feb 737456 Electricity
        = Ok (Float (A := binary64) f)
        /\ Binary64.eq_int f 1100 = true)
  /\ store_invariant jan_feb_exact
  /\ getitem (readings jan_feb_exact) 0 = Ok (readingQ 737425 1000 100)
  /\ getitem (readings jan_feb_exact) (-1) = Ok (readingQ 737456 1100 120)
  /\ In (readingQ 737456 1100 120) (readings jan_feb_exact)
  /\ exists v, reading ts_utc jan_feb_exact 737456 Gas = Ok v
               /\ (value v == 120)%Q.
Proof.
  assert (Hinv : store_invariant jan_feb)
    by (split; [discriminate | split; reflexivity]).
  assert (Hts : increasing ts_utc 737425 737456)
    by (apply ts_utc_increasing; reflexivity).
  assert (Hc : consecutive jan_feb (reading64 737425 1000 100)
                 (reading64 737456 1100 120))
    by (exists [], []; reflexivity).
  assert (Hinv' : store_invariant jan_feb_exact)
    by (split; [discriminate | split; reflexivity]).
  assert (Hin : In (readingQ 737456 1100 120) (readings jan_feb_exact))
    by (right; left; reflexivity).
  assert (Hlo : 0 <= 1000 <= 1100) by (split; discriminate).
  assert (Hhi : 1100 < 2 ^ 53) by reflexivity.
  destruct (stored_reading_lookup ts_utc)
    as (_ & _ & Hexact & Hdouble & Hint).
  destruct (Hdouble jan_feb _ _ _ _ Gas Hinv eq_refl eq_refl Hts Hc)
    as (first & second & _ & _ & _ & _ & Hgas).
  split; [exact Hinv |]. split; [reflexivity |]. split; [reflexivity |].
  split; [exact Hts |]. split; [exact Hc |].
  split; [exact Hgas |].
  split; [exact Hlo |]. split; [exact Hhi |].
  split; [exact (Hint jan_feb _ _ _ _ Hinv eq_refl eq_refl Hts Hc Hlo Hhi) |].
  split; [exact Hinv' |]. split; [reflexivity |]. split; [reflexivity |].
  split; [exact Hin |].
  exact (Hexact jan_feb_exact _ _ _ Gas Hinv' eq_refl eq_refl Hts Hin).
Defined.

(** C9 as the specification states it, refuted twice.  With readings on
    2011-12-30 and 2011-12-31, strictly ascending, and the clock of
    Pacific/Apia, the two dates have the same timestamp and the lookup at
    the second divides by zero.  With gas readings of 2 and 9 cubic metres
    and the clock of UTC, the lookup at the date of the second reading
    divides by a non-zero interval but does not return the stored 102.2643:
    it returns 102.26430000000002. *)
Lemma stored_date_lookup_is_not_stored_value :
  ~ (forall at_, 734501 <= at_ <= 734502 ->
       reading ts_apia end_of_2011 at_ Gas <> Err ZeroDivisionError)
  /\ ~ (forall p r,
          consecutive cubic_metres p r ->
          exists v, reading ts_utc cubic_metres (r_at r) Gas = Ok (Float v)
                    /\ PrimFloat.eqb v (gas r) = true).
Proof.
  split.
  - intros H. apply (H 734502); [split; discriminate | reflexivity].
  - intros H.
    destruct (H (reading64 737425 1000 0x1.6b9b3d07c84b6p+4)
                (reading64 737456 1100 0x1.990ea4a8c154dp+6))
      as (v & Hv & Heq).
    + exists [], []. reflexivity.
    + assert (E : reading ts_utc cubic_metres 737456 Gas
                  = Ok (Float (A := binary64) 0x1.990ea4a8c154ep+6%float))
        by reflexivity.
      pose proof (eq_trans (eq_sym E) Hv) as Hv'. injection Hv' as <-.
      vm_compute in Heq. discriminate Heq.
Qed.

(** C9, amended.  In a store that keeps the invariants, where [ts] returns
    on the dates from the first reading's to the last reading's and ascends
    with them, for every date from the first reading's to the last
    reading's, the lookup does not divide by zero.  At the first reading's
    date it returns the stored value.  At any other date it interpolates
    between two readings that follow each other, the first dated before the
    query and the second not before it, so that the divisor is positive;
    when the date is the second one's, the progress is exactly [1.0] in
    binary64 and the result is the stored value in exact arithmetic.  But
    where two readings that follow each other have dates with the same
    timestamp, the lookup at the second one's date divides by zero. *)
Theorem lookup_divides_safely (ts : date -> result Z) :
  (forall (A : Arith) (d : Data A) (r0 rl : Reading A) (at_ : date)
          (energy : Energy),
     store_invariant d ->
     getitem (readings d) 0 = Ok r0 ->
     getitem (readings d) (-1) = Ok rl ->
     increasing ts (r_at r0) (r_at rl) ->
     r_at r0 <= at_ <= r_at rl ->
     reading ts d at_ energy <> Err ZeroDivisionError
     /\ (at_ = r_at r0 -> reading ts d at_ energy = Ok (get r0 energy))
     /\ (at_ <> r_at r0 ->
         exists p s first second current,
           consecutive d p s
           /\ r_at p < at_ <= r_at s
           /\ ts (r_at p) = Ok first /\ ts (r_at s) = Ok second
           /\ ts at_ = Ok current
           /\ 0 < second - first
           /\ reading ts d at_ energy
              = interpolate first second current
                            (get p energy) (get s energy)))
  /\ (forall first second : Z,
        second <> first ->
        truediv (A := binary64) (second - first) (second - first)
        = Ok 1%float)
  /\ (forall (d : Data rational) (r0 rl p s : Reading rational)
             (energy : Energy),
        store_invariant d ->
        getitem (readings d) 0 = Ok r0 ->
        getitem (readings d) (-1) = Ok rl ->
        increasing ts (r_at r0) (r_at rl) ->
        consecutive d p s ->
        exists v, reading ts d (r_at s) energy = Ok v
                  /\ (value v == value (get s energy))%Q)
  /\ (forall (A : Arith) (d : Data A) (p s : Reading A) (energy : Energy)
             (t : Z),
        store_invariant d ->
        consecutive d p s ->
        ts (r_at p) = Ok t -> ts (r_at s) = Ok t ->
        reading ts d (r_at s) energy = Err ZeroDivisionError).
Proof.
  split; [| split; [| split]].
  - intros A d r0 rl at_ energy (_ & Hasc & _) H0 Hl Hts Hin.
    split; [| split].
    + intros E.
      pose proof (reading_inside_error ts d r0 rl at_ energy _
                    Hts Hasc H0 Hl Hin E).
      discriminate.
    + intros ->. now apply reading_first.
    + intros Hne.
      destruct (bracket_exists (readings d) r0 rl at_ Hasc H0 Hl)
        as (l1 & p & s & l2 & E & Hb); [lia |].
      assert (Hc : consecutive d p s) by (now exists l1, l2).
      destruct (consecutive_inside d r0 rl p s Hasc H0 Hl Hc) as (Hp & _ & Hs).
      destruct (interpolated_timestamps ts (r_at r0) (r_at rl) p s at_
                  energy Hts)
        as (first & second & current & Hf & Hsnd & Hcur & Hlt & Ei);
        try lia.
      exists p, s, first, second, current.
      split; [exact Hc |]. split; [exact Hb |].
      split; [exact Hf |]. split; [exact Hsnd |]. split; [exact Hcur |].
      split; [lia |].
      rewrite <- Ei. now apply reading_between with (l1 := l1) (l2 := l2).
  - intros first second Hne. unfold truediv.
    destruct (second - first =? 0) eqn:E; [lia |].
    cbn [div_int binary64].
    rewrite Binary64Facts.int_div_self by lia. reflexivity.
  - intros d r0 rl p s energy (_ & Hasc & _) H0 Hl Hts (l1 & l2 & E).
    apply reading_stored_rational with (r0 := r0) (rl := rl); try assumption.
    rewrite E. apply in_or_app. right. right. now left.
  - intros A d p s energy t (_ & Hasc & _) Hc Hp Hs.
    rewrite (reading_stored ts d p s energy Hasc Hc).
    unfold interpolated. rewrite Hp, Hs. cbn [bind].
    apply interpolate_same.
Qed.

Lemma lookup_divides_safely_witness :
  store_invariant cubic_metres
  /\ getitem (readings cubic_metres) 0
     = Ok (reading64 737425 1000 0x1.6b9b3d07c84b6p+4)
  /\ getitem (readings cubic_metres) (-1)
     = Ok (reading64 737456 1100 0x1.990ea4a8c154dp+6)
  /\ increasing ts_utc 737425 737456
  /\ 737425 <= 737456 <= 737456
  /\ reading ts_utc cubic_metres 737456 Gas <> Err ZeroDivisionError
  /\ store_invariant end_of_2011
  /\ consecutive end_of_2011 (reading64 734501 1000 100)
                 (reading64 734502 1003 101)
  /\ ts_apia 734501 = Ok 1325239200
  /\ ts_apia 734502 = Ok 1325239200
  /\ reading ts_apia end_of_2011 734502 Gas = Err ZeroDivisionError.
Proof.
  assert (Hinv : store_invariant cubic_metres)
    by (split; [discriminate | split; reflexivity]).
  assert (Hts : increasing ts_utc 737425 737456)
    by (apply ts_utc_increasing; reflexivity).
  assert (Hin : 737425 <= 737456 <= 737456) by (split; discriminate).
  assert (Hinv' : store_invariant end_of_2011)
    by (split; [discriminate | split; reflexivity]).
  assert (Hc : consecutive end_of_2011 (reading64 734501 1000 100)
                 (reading64 734502 1003 101))
    by (exists [], []; reflexivity).
  destruct (lookup_divides_safely ts_utc) as (Hsafe & _).
  destruct (lookup_divides_safely ts_apia) as (_ & _ & _ & Hzero).
  split; [exact Hinv |]. split; [reflexivity |]. split; [reflexivity |].
  split; [exact Hts |]. split; [exact Hin |].
  split.
  { exact (proj1 (Hsafe binary64 cubic_metres
                    (reading64 737425 1000 0x1.6b9b3d07c84b6p+4)
                    (reading64 737456 1100 0x1.990ea4a8c154dp+6)
                    737456 Gas Hinv eq_refl eq_refl Hts Hin)). }
  split; [exact Hinv' |]. split; [exact Hc |].
  split; [reflexivity |]. split; [reflexivity |].
  exact (Hzero binary64 end_of_2011 _ _ Gas 1325239200 Hinv' Hc
           eq_refl eq_refl).
Defined.

(** What a collected loop returns lines up with its input. *)
Lemma for_yield_ok {T U : Type} (f : T -> result U) (l : list T) :
  forall vs, for_yield f l = Ok vs -> Forall2 (fun x v => f x = Ok v) l vs.
Proof.
  induction l as [| x l IH]; intros vs H; cbn [for_yield] in H.
  - injection H as <-. constructor.
  - destruct (f x) as [v |] eqn:E; cbn [bind] in H; [| discriminate].
    destruct (for_yield f l) as [vs' |]; cbn [bind] in H; [| discriminate].
    injection H as <-. constructor; [exact E | now apply IH].
Qed.

(** A collected loop fails with the exception of one of its rounds. *)
Lemma for_yield_err {T U : Type} (f : T -> result U) (l : list T) (e : exn) :
  for_yield f l = Err e -> exists x, In x l /\ f x = Err e.
Proof.
  induction l as [| x l IH]; intros H; cbn [for_yield] in H; [discriminate |].
  destruct (f x) as [v |] eqn:E; cbn [bind] in H.
  - destruct (for_yield f l) as [vs' |]; cbn [bind] in H; [discriminate |].
    destruct (IH H) as (y & Hy & Hfy). exists y. split; [now right | exact Hfy].
  - injection H as <-. exists x. split; [now left | exact E].
Qed.

(** An interpolated value is a [float]. *)
Lemma interpolate_float {A : Arith} (first second current : Z)
  (v0 v1 v : num A) :
  interpolate first second current v0 v1 = Ok v -> exists f, v = Float f.
Proof.
  unfold interpolate. destruct (truediv _ _) as [progress |]; cbn [bind];
    [| discriminate].
  destruct (sub v1 v0) as [delta |]; cbn [bind]; [| discriminate].
  destruct (mul delta (Float progress)) as [share |] eqn:E; cbn [bind];
    [| discriminate].
  assert (Hs : exists g, share = Float g).
  { unfold mul, binop in E. destruct delta as [z | g]; cbn [to_float bind] in E.
    - destruct (of_int z); cbn [bind] in E; [| discriminate].
      injection E as <-. now eexists.
    - injection E as <-. now eexists. }
  destruct Hs as [g ->]. unfold add, binop.
  destruct v0 as [z | g0]; cbn [to_float bind].
  - destruct (of_int z); cbn [bind]; [| discriminate].
    intros [= <-]. now eexists.
  - intros [= <-]. now eexists.
Qed.

(** A difference with a [float] on the left is a [float]. *)
Lemma sub_float {A : Arith} (f : F) (y v : num A) :
  sub (Float f) y = Ok v -> exists g, v = Float g.
Proof.
  unfold sub, binop. cbn [to_float bind].
  destruct (to_float y); cbn [bind]; [| discriminate].
  intros [= <-]. now eexists.
Qed.

(** In exact arithmetic [-] never fails and subtracts the values. *)
Lemma sub_rational (x y : num rational) :
  exists v, sub x y = Ok v /\ (value v == value x - value y)%Q.
Proof.
  destruct x as [a | a], y as [b | b]; cbn; eexists;
    (split; [reflexivity |]); cbn; try reflexivity.
  apply inject_Z_sub.
Qed.

(** ** Further properties: binary64 on integers *)

Module Binary64More.

Import Binary64 Binary64Facts.

Lemma SFsub_canon (a b : positive) :
  Zpos a < Zpos b -> Zpos b < 2 ^ 53 ->
  SFsub prec emax (canon b) (canon a) = canon (b - a).
Proof.
  intros Hab Hb.
  assert (Ha : Zpos a < 2 ^ 53) by lia.
  assert (Hd : Zpos (b - a) = Zpos b - Zpos a)
    by (rewrite Pos2Z.inj_sub by lia; reflexivity).
  assert (Hs : Zpos (b - a) < 2 ^ 53) by lia.
  pose proof (digits2_small a Ha) as Hda.
  pose proof (digits2_small b Hb) as Hdb.
  pose proof (digits2_small (b - a) Hs) as Hds.
  assert (Hmono : Zpos (digits2_pos a) <= Zpos (digits2_pos b))
    by (apply digits2_mono; lia).
  unfold canon at 1 2. cbn [SFsub cond_Zopp].
  set (ez := Z.min (Zpos (digits2_pos b) - 53) (Zpos (digits2_pos a) - 53)).
  destruct (shl_align _ (Zpos (digits2_pos b) - 53) ez) as [qb eb] eqn:Eb.
  destruct (shl_align _ (Zpos (digits2_pos a) - 53) ez) as [qa ea] eqn:Ea.
  cbn [fst].
  apply (f_equal fst) in Ea, Eb. cbn [fst] in Ea, Eb.
  apply (f_equal Zpos) in Ea, Eb.
  rewrite shl_align_value, canon_value in Ea, Eb by (assumption || lia).
  assert (Hez : ez = Zpos (digits2_pos a) - 53) by lia.
  assert (Hval : Zpos qb - Zpos qa = Zpos (b - a) * 2 ^ (- ez)).
  { rewrite <- Ea, <- Eb, Hd.
    rewrite <- !Z.mul_assoc, <- !Z.pow_add_r by lia.
    rewrite Z.mul_sub_distr_r. f_equal; f_equal; f_equal; lia. }
  assert (Hpos : 0 < Zpos qb - Zpos qa).
  { rewrite Hval. apply Z.mul_pos_pos; [lia |]. apply Z.pow_pos_nonneg; lia. }
  destruct (Zpos qb - Zpos qa) as [| q | q] eqn:Eq; [lia | | lia].
  cbn [binary_normalize]. unfold canon.
  apply binary_round_exact; [now apply canon_normal |].
  rewrite canon_value by assumption.
  destruct (Z_le_gt_dec ez (Zpos (digits2_pos (b - a)) - 53)) as [Hle | Hgt].
  - left. split; [exact Hle |]. rewrite Hval.
    rewrite <- Z.mul_assoc, <- Z.pow_add_r by lia. f_equal. f_equal. lia.
  - right. split; [lia |]. rewrite Hval.
    rewrite <- Z.mul_assoc, <- Z.pow_add_r by lia. f_equal. f_equal. lia.
Qed.

(** The difference of the doubles of two integers from 0 to 2^53 - 1, the
    smaller taken from the larger, is the double of their difference. *)
Lemma float_of_int_sub (a b : Z) :
  0 <= a <= b -> b < 2 ^ 53 ->
  (float_of_int b - float_of_int a)%float = float_of_int (b - a).
Proof.
  intros Hab Hb. apply Prim2SF_inj. rewrite sub_spec.
  destruct a as [| a | a]; [| | lia]; destruct b as [| b | b]; try lia.
  - reflexivity.
  - rewrite Z.sub_0_r, Prim2SF_float_of_int by lia. reflexivity.
  - destruct (Z.eq_dec (Zpos a) (Zpos b)) as [E | Hne].
    + injection E as ->. rewrite Z.sub_diag, Prim2SF_float_of_int by lia.
      unfold canon, SF64sub. cbn [SFsub cond_Zopp].
      rewrite Z.min_id.
      destruct (shl_align _ _ _) as [q e]. cbn [fst].
      rewrite Z.sub_diag. reflexivity.
    + rewrite !Prim2SF_float_of_int by lia.
      replace (Zpos b - Zpos a) with (Zpos (b - a))
        by (rewrite Pos2Z.inj_sub by lia; reflexivity).
      rewrite Prim2SF_float_of_int
        by (rewrite Pos2Z.inj_sub by lia; lia).
      apply SFsub_canon; lia.
Qed.

End Binary64More.

(** ** Further properties: the pieces *)

(** What [usage_dates] returns, on any store: the days from the second day
    after the first date up to the last, each one with a day before and a
    next day in the calendar. *)
Lemma usage_dates_inv {A : Arith} (d : Data A) (r0 rl : Reading A)
  (ds : list date) :
  getitem (readings d) 0 = Ok r0 ->
  getitem (readings d) (-1) = Ok rl ->
  usage_dates d = Ok ds ->
  ds = days (r_at r0 + 2) (Z.to_nat (r_at rl - r_at r0 - 1))
  /\ forall x, In x ds ->
       r_at r0 + 2 <= x <= r_at rl /\ date_min < x < date_max.
Proof.
  intros H0 Hl H. unfold usage_dates in H.
  destruct (dates d) as [all |] eqn:E; cbn [bind] in H; [| discriminate].
  injection H as <-.
  destruct (dates_inv d r0 rl all H0 Hl E) as (-> & Hday & Hin).
  assert (Etl : @tl date (days (r_at r0 + 1) (Z.to_nat (r_at rl - r_at r0)))
                = days (r_at r0 + 2) (Z.to_nat (r_at rl - r_at r0 - 1)))
    by (rewrite days_tl; f_equal; lia).
  split; [exact Etl |]. rewrite Etl. intros x Hx.
  pose proof (proj1 (days_In _ _ _) Hx) as Hrange.
  assert (Hall : In x (days (r_at r0 + 1) (Z.to_nat (r_at rl - r_at r0))))
    by (apply days_In; lia).
  specialize (Hin x Hall). lia.
Qed.

(** On a store with a reading, [usage_dates] raises nothing but
    [OverflowError]. *)
Lemma usage_dates_error {A : Arith} (d : Data A) (r0 : Reading A) (e : exn) :
  getitem (readings d) 0 = Ok r0 -> usage_dates d = Err e -> e = OverflowError.
Proof.
  intros H0 H. unfold usage_dates in H.
  destruct (dates d) as [all |] eqn:E; cbn [bind] in H; [discriminate |].
  injection H as <-. exact (dates_error d r0 _ H0 E).
Qed.

(** The series of a field is the loop of [usage] over the usage dates. *)
Lemma usages_unfold {A : Arith} (ts : date -> result Z) (d : Data A)
  (energy : Energy) :
  usages ts d energy
  = (ds <- usage_dates d ;; for_yield (fun day => usage ts d day energy) ds).
Proof. destruct energy; reflexivity. Qed.

(** On any store whose dates have ascending timestamps, [usage] inside its
    dates fails only by overflow. *)
Lemma usage_inside_error {A : Arith} (ts : date -> result Z) (lo hi : date)
  (d : Data A) (r0 rl : Reading A) (at_ : date) (energy : Energy) (e : exn) :
  increasing ts lo hi ->
  within lo hi (readings d) = true ->
  getitem (readings d) 0 = Ok r0 ->
  getitem (readings d) (-1) = Ok rl ->
  r_at r0 < at_ <= r_at rl ->
  usage ts d at_ energy = Err e -> e = OverflowError.
Proof.
  intros Hts Hw H0 Hl Hin.
  rewrite (usage_inside_step ts d r0 rl at_ energy H0 Hl Hin).
  destruct (reading ts d at_ energy) as [today | e1] eqn:E1; cbn [bind].
  - destruct (add_days at_ (-1)) as [day_before | e0] eqn:E0; cbn [bind].
    + apply add_days_inv in E0 as [-> _].
      destruct (reading ts d (at_ + -1) energy) as [yesterday | e2] eqn:E2;
        cbn [bind].
      * apply binop_error.
      * intros [= <-].
        apply (reading_inside_error_any ts lo hi d r0 rl (at_ + -1) energy e2
                 Hts Hw H0 Hl); [lia | exact E2].
    + intros [= <-]. exact (add_days_error _ _ _ E0).
  - intros [= <-].
    apply (reading_inside_error_any ts lo hi d r0 rl at_ energy e1
             Hts Hw H0 Hl); [lia | exact E1].
Qed.

(** With a year after the second day, an annual figure fails only by
    overflow. *)
Lemma annual_long_error {A : Arith} (ts : date -> result Z) (lo hi : date)
  (d : Data A) (r0 rl : Reading A) (energy : Energy) (e : exn) :
  increasing ts lo hi ->
  within lo hi (readings d) = true ->
  getitem (readings d) 0 = Ok r0 ->
  getitem (readings d) (-1) = Ok rl ->
  r_at r0 + 367 <= r_at rl ->
  average_annual_consumption ts d energy = Err e -> e = OverflowError.
Proof.
  intros Hts Hw H0 Hl Hspan. rewrite annual_unfold.
  destruct (usage_dates d) as [ds | e0] eqn:Ed; cbn [bind];
    [| intros [= <-]; exact (usage_dates_error d r0 _ H0 Ed)].
  destruct (usage_dates_inv d r0 rl ds H0 Hl Ed) as [-> _].
  replace (Z.to_nat (r_at rl - r_at r0 - 1))
    with (S (Z.to_nat (r_at rl - r_at r0 - 2))) by lia.
  cbn [days]. rewrite getitem_head. cbn [bind].
  destruct (add_days (r_at r0 + 2) 365) as [end_ | e0] eqn:Ee; cbn [bind];
    [| intros [= <-]; exact (add_days_error _ _ _ Ee)].
  apply add_days_inv in Ee as [-> _].
  destruct (reading ts d (r_at r0 + 2) energy) as [va | e1] eqn:E1; cbn [bind].
  - destruct (reading ts d (r_at r0 + 2 + 365) energy) as [vb | e2] eqn:E2;
      cbn [bind].
    + apply binop_error.
    + intros [= <-].
      apply (reading_inside_error_any ts lo hi d r0 rl (r_at r0 + 2 + 365)
               energy e2 Hts Hw H0 Hl); [lia | exact E2].
  - intros [= <-].
    apply (reading_inside_error_any ts lo hi d r0 rl (r_at r0 + 2) energy e1
             Hts Hw H0 Hl); [lia | exact E1].
Qed.

(** Short of a year after the second day, an annual figure fails. *)
Lemma annual_short_fails {A : Arith} (ts : date -> result Z) (d : Data A)
  (r0 rl : Reading A) (energy : Energy) :
  getitem (readings d) 0 = Ok r0 ->
  getitem (readings d) (-1) = Ok rl ->
  r_at rl < r_at r0 + 367 ->
  exists e, average_annual_consumption ts d energy = Err e.
Proof.
  intros H0 Hl Hspan. rewrite annual_unfold.
  destruct (usage_dates d) as [ds | e0] eqn:Ed; cbn [bind];
    [| now exists e0].
  destruct (usage_dates_inv d r0 rl ds H0 Hl Ed) as [-> _].
  destruct (Z.to_nat (r_at rl - r_at r0 - 1)) as [| n]; cbn [days].
  - rewrite getitem_nil. now exists IndexError.
  - rewrite getitem_head. cbn [bind].
    destruct (add_days (r_at r0 + 2) 365) as [end_ | e0] eqn:Ee; cbn [bind];
      [| now exists e0].
    apply add_days_inv in Ee as [-> _].
    destruct (reading ts d (r_at r0 + 2) energy) as [va | e1]; cbn [bind];
      [| now exists e1].
    rewrite (reading_outside ts d r0 rl (r_at r0 + 2 + 365) energy H0 Hl)
      by lia.
    now exists AssertionError.
Qed.

(** What the call of [interpolate] returns is a [float]. *)
Lemma interpolated_float {A : Arith} (ts : date -> result Z)
  (p s : Reading A) (at_ : date) (energy : Energy) (v : num A) :
  interpolated ts p s at_ energy = Ok v -> exists f, v = Float f.
Proof.
  unfold interpolated.
  destruct (ts (r_at p)); cbn [bind]; [| discriminate].
  destruct (ts (r_at s)); cbn [bind]; [| discriminate].
  destruct (ts at_); cbn [bind]; [| discriminate].
  apply interpolate_float.
Qed.

(** A lookup after the first reading's date returns a [float]. *)
Lemma reading_float {A : Arith} (ts : date -> result Z) (d : Data A)
  (r0 rl : Reading A) (at_ : date) (energy : Energy) (v : num A) :
  getitem (readings d) 0 = Ok r0 ->
  getitem (readings d) (-1) = Ok rl ->
  at_ <> r_at r0 ->
  reading ts d at_ energy = Ok v -> exists f, v = Float f.
Proof.
  intros H0 Hl Hne Hv.
  destruct (Z_lt_ge_dec (r_at r0) at_) as [Hlo | Hlo];
    [destruct (Z_le_gt_dec at_ (r_at rl)) as [Hhi | Hhi] |].
  - destruct (reading_bracket ts d r0 rl at_ energy H0 Hl)
      as (l1 & p & s & l2 & _ & _ & _ & E); [lia |].
    rewrite E in Hv. exact (interpolated_float _ _ _ _ _ _ Hv).
  - rewrite (reading_outside ts d r0 rl at_ energy H0 Hl) in Hv by lia.
    discriminate.
  - rewrite (reading_outside ts d r0 rl at_ energy H0 Hl) in Hv by lia.
    discriminate.
Qed.

(** In exact arithmetic a lookup inside the dates of any store returns,
    where the timestamps ascend. *)
Lemma reading_rational_total (ts : date -> result Z) (lo hi : date)
  (d : Data rational) (r0 rl : Reading rational) (at_ : date)
  (energy : Energy) :
  increasing ts lo hi ->
  within lo hi (readings d) = true ->
  getitem (readings d) 0 = Ok r0 ->
  getitem (readings d) (-1) = Ok rl ->
  r_at r0 <= at_ <= r_at rl ->
  exists v, reading ts d at_ energy = Ok v.
Proof.
  intros Hts Hw H0 Hl Hin.
  destruct (reading ts d at_ energy) as [v | e] eqn:E; [now exists v |].
  pose proof (reading_inside_error_any ts lo hi d r0 rl at_ energy e
                Hts Hw H0 Hl Hin E) as ->.
  exfalso. revert E.
  destruct (Z.eq_dec at_ (r_at r0)) as [-> | Hne].
  - rewrite (reading_at_first ts d r0 rl energy H0 Hl) by lia. discriminate.
  - destruct (reading_bracket ts d r0 rl at_ energy H0 Hl)
      as (l1 & p & s & l2 & E & _ & Hb & ->); [lia |].
    assert (Hp : lo <= r_at p <= hi).
    { apply (within_In _ _ _ _ Hw). rewrite E. apply in_or_app. right.
      now left. }
    assert (Hs : lo <= r_at s <= hi).
    { apply (within_In _ _ _ _ Hw). rewrite E. apply in_or_app. right.
      right. now left. }
    destruct (interpolated_timestamps ts lo hi p s at_ energy Hts)
      as (first & second & current & _ & _ & _ & Hlt & ->); try lia.
    destruct (interpolate_rational first second current
                (get p energy) (get s energy)) as (v & -> & _); [lia |].
    discriminate.
Qed.

(** ** Further properties of the program *)

(** X1.  The lookup is safe on any store with a reading, ordered or not,
    where [ts] returns on the dates from [lo] to [hi], ascends with them,
    and every reading is dated from [lo] to [hi]: outside the dates of the
    first and the last reading it fails its assertion; inside them it can
    fail only where a conversion overflows (it never divides by zero, never
    exhausts its search, never steps back to index -1); and after the first
    reading's date it interpolates between the first reading that is not
    before the query and the reading stored just before that one. *)
Theorem lookup_on_any_store (A : Arith) (ts : date -> result Z)
  (lo hi : date) (d : Data A) (r0 rl : Reading A) (at_ : date)
  (energy : Energy) :
  increasing ts lo hi ->
  within lo hi (readings d) = true ->
  getitem (readings d) 0 = Ok r0 ->
  getitem (readings d) (-1) = Ok rl ->
  (~ r_at r0 <= at_ <= r_at rl ->
   reading ts d at_ energy = Err AssertionError)
  /\ (r_at r0 <= at_ <= r_at rl ->
      forall e, reading ts d at_ energy = Err e -> e = OverflowError)
  /\ (r_at r0 < at_ <= r_at rl ->
      exists l1 p s l2 first second current,
        readings d = l1 ++ p :: s :: l2
        /\ Forall (fun x => r_at x < at_) l1
        /\ r_at p < at_ <= r_at s
        /\ ts (r_at p) = Ok first /\ ts (r_at s) = Ok second
        /\ ts at_ = Ok current
        /\ first < current <= second
        /\ reading ts d at_ energy
           = interpolate first second current
                         (get p energy) (get s energy)).
Proof.
  intros Hts Hw H0 Hl. split; [| split].
  - intros Hout. now apply reading_outside with (r0 := r0) (rl := rl).
  - intros Hin e.
    now apply reading_inside_error_any
      with (lo := lo) (hi := hi) (r0 := r0) (rl := rl).
  - intros Hin.
    destruct (reading_bracket ts d r0 rl at_ energy H0 Hl Hin)
      as (l1 & p & s & l2 & E & Hall & Hb & Er).
    assert (Hp : lo <= r_at p <= hi).
    { apply (within_In _ _ _ _ Hw). rewrite E. apply in_or_app. right.
      now left. }
    assert (Hs : lo <= r_at s <= hi).
    { apply (within_In _ _ _ _ Hw). rewrite E. apply in_or_app. right.
      right. now left. }
    destruct (interpolated_timestamps ts lo hi p s at_ energy Hts)
      as (first & second & current & Hf & Hsnd & Hcur & Hlt & Ei); try lia.
    exists l1, p, s, l2, first, second, current.
    repeat (split; [assumption |]). now rewrite Er.
Qed.

Lemma lookup_on_any_store_witness :
  increasing ts_utc 737425 737460
  /\ within 737425 737460 (readings out_of_order) = true
  /\ getitem (readings out_of_order) 0 = Ok (reading64 737456 1100 120)
  /\ getitem (readings out_of_order) (-1) = Ok (reading64 737460 1120 125)
  /\ 737456 <= 737458 <= 737460
  /\ forall e, reading ts_utc out_of_order 737458 Electricity = Err e ->
               e = OverflowError.
Proof.
  assert (Hts : increasing ts_utc 737425 737460)
    by (apply ts_utc_increasing; reflexivity).
  assert (Hin : 737456 <= 737458 <= 737460) by (split; discriminate).
  pose proof (lookup_on_any_store binary64 ts_utc 737425 737460 out_of_order
                (reading64 737456 1100 120) (reading64 737460 1120 125)
                737458 Electricity Hts eq_refl eq_refl eq_refl)
    as (_ & H & _).
  split; [exact Hts |]. split; [reflexivity |].
  split; [reflexivity |]. split; [reflexivity |]. split; [exact Hin |].
  exact (H Hin).
Defined.

(** X2.  Without any reading every query of the store fails with
    [IndexError] on [readings[0]]: lookup, usage, dates, usage dates, both
    usage series and both annual figures; the module-level handler does not
    catch it and nothing is printed.  The weather filters fail the same way
    as soon as there is a weather entry, and return the empty list when
    there is none. *)
Theorem without_readings (A : Arith) (ts : date -> result Z) (d : Data A) :
  readings d = [] ->
  (forall at_ energy,
     reading ts d at_ energy = Err IndexError
     /\ usage ts d at_ energy = Err IndexError)
  /\ dates d = Err IndexError
  /\ usage_dates d = Err IndexError
  /\ (forall energy,
        usages ts d energy = Err IndexError
        /\ average_annual_consumption ts d energy = Err IndexError)
  /\ annual_report ts d = ([], Some IndexError)
  /\ (weathers d = [] -> temperature_dates d = Ok [] /\ air_means d = Ok [])
  /\ (weathers d <> [] ->
      temperature_dates d = Err IndexError /\ air_means d = Err IndexError).
Proof.
  intros E.
  assert (Hc : forall strict at_, covers strict d at_ = Err IndexError)
    by (intros strict at_; unfold covers; now rewrite E, getitem_nil).
  assert (Hd : dates d = Err IndexError)
    by (unfold dates; now rewrite E, getitem_nil).
  assert (Hu : usage_dates d = Err IndexError)
    by (unfold usage_dates; now rewrite Hd).
  assert (Ha : forall energy,
             average_annual_consumption ts d energy = Err IndexError).
  { intros energy. rewrite annual_unfold. now rewrite Hu. }
  split.
  { intros at_ energy. unfold reading, usage. now rewrite !Hc. }
  split; [exact Hd |]. split; [exact Hu |].
  split.
  { intros energy. split; [| apply Ha].
    rewrite usages_unfold. now rewrite Hu. }
  split.
  { unfold annual_report.
    change (average_annual_electricity_consumption ts d)
      with (average_annual_consumption ts d Electricity).
    now rewrite Ha. }
  split.
  - intros Ew. unfold temperature_dates, air_means. now rewrite Ew.
  - intros Hw. unfold temperature_dates, air_means.
    destruct (weathers d) as [| w ws]; [easy |].
    cbn [weather_loop]. now rewrite Hc.
Qed.

Lemma without_readings_witness :
  readings no_readings = []
  /\ weathers no_readings <> []
  /\ reading ts_utc no_readings 737439 Gas = Err IndexError
  /\ annual_report ts_utc no_readings = ([], Some IndexError)
  /\ temperature_dates no_readings = Err IndexError
  /\ readings nothing = []
  /\ weathers nothing = []
  /\ temperature_dates nothing = Ok [].
Proof.
  assert (Hw : weathers no_readings <> []) by discriminate.
  pose proof (without_readings binary64 ts_utc no_readings eq_refl)
    as (Hr & _ & _ & _ & Hrep & _ & Hfail).
  pose proof (without_readings binary64 ts_utc nothing eq_refl)
    as (_ & _ & _ & _ & _ & Hnone & _).
  split; [reflexivity |]. split; [exact Hw |].
  split; [exact (proj1 (Hr 737439 Gas)) |].
  split; [exact Hrep |].
  split; [exact (proj1 (Hfail Hw)) |].
  split; [reflexivity |]. split; [reflexivity |].
  exact (proj1 (Hnone eq_refl)).
Defined.

(** X3.  The usage series of a field lines up with the usage dates: when it
    returns, it has one value per usage date, the usage of that date, in the
    same order.  On any store with a reading whose dates have ascending
    timestamps it never fails the range assertion: every usage date is a
    date [usage] accepts, and the series can fail only with
    [OverflowError]. *)
Theorem usage_series (A : Arith) (ts : date -> result Z) (d : Data A)
  (r0 rl : Reading A) (energy : Energy) :
  getitem (readings d) 0 = Ok r0 ->
  getitem (readings d) (-1) = Ok rl ->
  (forall us,
     usages ts d energy = Ok us ->
     exists ds,
       usage_dates d = Ok ds
       /\ length us = length ds
       /\ Forall2 (fun day v => usage ts d day energy = Ok v) ds us)
  /\ (forall lo hi,
        increasing ts lo hi ->
        within lo hi (readings d) = true ->
        forall e, usages ts d energy = Err e -> e = OverflowError).
Proof.
  intros H0 Hl. rewrite usages_unfold. split.
  - intros us H.
    destruct (usage_dates d) as [ds |]; cbn [bind] in H; [| discriminate].
    exists ds. split; [reflexivity |].
    apply for_yield_ok in H. split; [| exact H].
    symmetry. exact (Forall2_length H).
  - intros lo hi Hts Hw e H.
    destruct (usage_dates d) as [ds | e0] eqn:Ed; cbn [bind] in H.
    + destruct (usage_dates_inv d r0 rl ds H0 Hl Ed) as [_ Hin].
      apply for_yield_err in H as (day & Hday & Hfail).
      apply (usage_inside_error ts lo hi d r0 rl day energy e Hts Hw H0 Hl);
        [| exact Hfail].
      specialize (Hin day Hday). lia.
    + injection H as <-. exact (usage_dates_error d r0 _ H0 Ed).
Qed.

Lemma usage_series_witness :
  getitem (readings jan_feb) 0 = Ok (reading64 737425 1000 100)
  /\ getitem (readings jan_feb) (-1) = Ok (reading64 737456 1100 120)
  /\ increasing ts_utc 737425 737456
  /\ within 737425 737456 (readings jan_feb) = true
  /\ forall e, usages ts_utc jan_feb Gas = Err e -> e = OverflowError.
Proof.
  assert (Hts : increasing ts_utc 737425 737456)
    by (apply ts_utc_increasing; reflexivity).
  pose proof (usage_series binary64 ts_utc jan_feb
                (reading64 737425 1000 100) (reading64 737456 1100 120)
                Gas eq_refl eq_refl) as [_ H].
  split; [reflexivity |]. split; [reflexivity |].
  split; [exact Hts |]. split; [reflexivity |].
  exact (H 737425 737456 Hts eq_refl).
Defined.

(** X10.  On a store whose last reading is less than 367 days after the
    first, both annual figures fail, and the module-level block prints no
    figure: whatever it prints is the insufficient-data line. *)
Theorem no_figure_without_a_year (A : Arith) (ts : date -> result Z)
  (d : Data A) (r0 rl : Reading A) :
  getitem (readings d) 0 = Ok r0 ->
  getitem (readings d) (-1) = Ok rl ->
  r_at rl < r_at r0 + 367 ->
  (forall energy, exists e, average_annual_consumption ts d energy = Err e)
  /\ (forall ln, In ln (fst (annual_report ts d)) -> ln = InsufficientData).
Proof.
  intros H0 Hl Hspan. split.
  - intros energy. now apply annual_short_fails with (r0 := r0) (rl := rl).
  - destruct (annual_short_fails ts d r0 rl Electricity H0 Hl Hspan) as [e He].
    unfold annual_report.
    change (average_annual_electricity_consumption ts d)
      with (average_annual_consumption ts d Electricity).
    rewrite He. destruct e; cbn [fst]; intros ln Hin;
      try contradiction.
    destruct Hin as [<- | []]. reflexivity.
Qed.

Lemma no_figure_without_a_year_witness :
  getitem (readings sixty_days) 0 = Ok (reading64 737425 1000 100)
  /\ getitem (readings sixty_days) (-1) = Ok (reading64 737485 1300 160)
  /\ 737485 < 737425 + 367
  /\ forall ln, In ln (fst (annual_report ts_utc sixty_days)) ->
                ln = InsufficientData.
Proof.
  assert (Hspan : 737485 < 737425 + 367) by reflexivity.
  split; [reflexivity |]. split; [reflexivity |]. split; [exact Hspan |].
  exact (proj2 (no_figure_without_a_year binary64 ts_utc sixty_days
                  (reading64 737425 1000 100) (reading64 737485 1300 160)
                  eq_refl eq_refl Hspan)).
Defined.

(** X11.  On any store whose last reading is 367 days or more after the
    first and whose dates have ascending timestamps, the module-level block
    never prints the insufficient-data line: it prints the two figures, or
    an [OverflowError] leaves it.  In exact arithmetic, with the last
    reading before [date.max], it prints the two figures. *)
Theorem figures_after_a_year (ts : date -> result Z) (lo hi : date) :
  increasing ts lo hi ->
  (forall (A : Arith) (d : Data A) (r0 rl : Reading A),
     within lo hi (readings d) = true ->
     getitem (readings d) 0 = Ok r0 ->
     getitem (readings d) (-1) = Ok rl ->
     r_at r0 + 367 <= r_at rl ->
     ~ In InsufficientData (fst (annual_report ts d))
     /\ ((exists e g,
            average_annual_consumption ts d Electricity = Ok e
            /\ average_annual_consumption ts d Gas = Ok g
            /\ annual_report ts d
               = ([AnnualElectricity e; AnnualGas g], None))
         \/ snd (annual_report ts d) = Some OverflowError))
  /\ (forall (d : Data rational) (r0 rl : Reading rational),
        within lo hi (readings d) = true ->
        getitem (readings d) 0 = Ok r0 ->
        getitem (readings d) (-1) = Ok rl ->
        r_at r0 + 367 <= r_at rl ->
        date_min <= r_at r0 -> r_at rl < date_max ->
        exists e g,
          annual_report ts d = ([AnnualElectricity e; AnnualGas g], None)).
Proof.
  intros Hts.
  assert (G : forall (A : Arith) (d : Data A) (r0 rl : Reading A),
             within lo hi (readings d) = true ->
             getitem (readings d) 0 = Ok r0 ->
             getitem (readings d) (-1) = Ok rl ->
             r_at r0 + 367 <= r_at rl ->
             ~ In InsufficientData (fst (annual_report ts d))
             /\ ((exists e g,
                    average_annual_consumption ts d Electricity = Ok e
                    /\ average_annual_consumption ts d Gas = Ok g
                    /\ annual_report ts d
                       = ([AnnualElectricity e; AnnualGas g], None))
                 \/ snd (annual_report ts d) = Some OverflowError)).
  { intros A d r0 rl Hw H0 Hl Hspan.
    pose proof (fun energy e =>
                  annual_long_error ts lo hi d r0 rl energy e Hts Hw H0 Hl Hspan)
      as Herr.
    unfold annual_report.
    change (average_annual_electricity_consumption ts d)
      with (average_annual_consumption ts d Electricity).
    change (average_annual_gas_consumption ts d)
      with (average_annual_consumption ts d Gas).
    destruct (average_annual_consumption ts d Electricity) as [e | x] eqn:Ee.
    - destruct (average_annual_consumption ts d Gas) as [g | x] eqn:Eg.
      + split.
        * cbn [fst]. intros [H | [H | []]]; discriminate H.
        * left. now exists e, g.
      + rewrite (Herr Gas x Eg). split.
        * cbn [fst]. intros [H | []]; discriminate H.
        * now right.
    - rewrite (Herr Electricity x Ee). split.
      + cbn [fst]. intros [].
      + now right. }
  split; [exact G |].
  intros d r0 rl Hw H0 Hl Hspan Hmin Hmax.
  destruct (G rational d r0 rl Hw H0 Hl Hspan) as [_ [(e & g & _ & _ & H) | H]].
  - now exists e, g.
  - exfalso. revert H. unfold annual_report.
    change (average_annual_electricity_consumption ts d)
      with (average_annual_consumption ts d Electricity).
    change (average_annual_gas_consumption ts d)
      with (average_annual_consumption ts d Gas).
    destruct (reading_rational_total ts lo hi d r0 rl (r_at r0 + 2)
                Electricity Hts Hw H0 Hl) as [va Hva]; [lia |].
    destruct (reading_rational_total ts lo hi d r0 rl (r_at r0 + 2 + 365)
                Electricity Hts Hw H0 Hl) as [vb Hvb]; [lia |].
    destruct (reading_rational_total ts lo hi d r0 rl (r_at r0 + 2)
                Gas Hts Hw H0 Hl) as [ga Hga]; [lia |].
    destruct (reading_rational_total ts lo hi d r0 rl (r_at r0 + 2 + 365)
                Gas Hts Hw H0 Hl) as [gb Hgb]; [lia |].
    destruct (sub_rational vb va) as (v & Hv & _).
    destruct (sub_rational gb ga) as (g & Hg & _).
    rewrite (annual_from_second_day ts d r0 rl Electricity H0 Hl) by lia.
    rewrite (annual_from_second_day ts d r0 rl Gas H0 Hl) by lia.
    rewrite Hva, Hvb, Hga, Hgb. cbn [bind]. rewrite Hv, Hg. discriminate.
Qed.

Lemma figures_after_a_year_witness :
  increasing ts_utc 737425 737925
  /\ within 737425 737925 (readings two_rates) = true
  /\ getitem (readings two_rates) 0 = Ok (reading64 737425 0 0)
  /\ getitem (readings two_rates) (-1) = Ok (reading64 737925 1000 100)
  /\ 737425 + 367 <= 737925
  /\ ~ In InsufficientData (fst (annual_report ts_utc two_rates)).
Proof.
  assert (Hts : increasing ts_utc 737425 737925)
    by (apply ts_utc_increasing; reflexivity).
  assert (Hspan : 737425 + 367 <= 737925) by discriminate.
  split; [exact Hts |]. split; [reflexivity |].
  split; [reflexivity |]. split; [reflexivity |]. split; [exact Hspan |].
  exact (proj1 (proj1 (figures_after_a_year ts_utc 737425 737925 Hts)
                  binary64 two_rates
                  (reading64 737425 0 0) (reading64 737925 1000 100)
                  eq_refl eq_refl eq_refl Hspan)).
Defined.

(** X12.  Interpolated values are floats, also for the integer electricity
    field: on any store, a lookup returns an [int] only at the first
    reading's date and for electricity, where it is the stored integer;
    every usage and every annual figure that is returned is a [float]. *)
Theorem interpolated_values_are_floats (A : Arith) (ts : date -> result Z)
  (d : Data A) (r0 rl : Reading A) (energy : Energy) :
  getitem (readings d) 0 = Ok r0 ->
  getitem (readings d) (-1) = Ok rl ->
  (forall at_ z,
     reading ts d at_ energy = Ok (Int z) ->
     at_ = r_at r0 /\ energy = Electricity /\ z = electricity r0)
  /\ (forall at_ v, usage ts d at_ energy = Ok v -> exists f, v = Float f)
  /\ (forall v, average_annual_consumption ts d energy = Ok v ->
                exists f, v = Float f).
Proof.
  intros H0 Hl. split; [| split].
  - intros at_ z Hv.
    destruct (Z.eq_dec at_ (r_at r0)) as [-> | Hne].
    + destruct (Z_le_gt_dec (r_at r0) (r_at rl)) as [Hle | Hgt].
      * rewrite (reading_at_first ts d r0 rl energy H0 Hl Hle) in Hv.
        destruct energy; cbn [get] in Hv; [| discriminate].
        injection Hv as <-. now repeat split.
      * rewrite (reading_outside ts d r0 rl (r_at r0) energy H0 Hl) in Hv
          by lia.
        discriminate.
    + destruct (reading_float ts d r0 rl at_ energy (Int z) H0 Hl Hne Hv)
        as [f Hf].
      discriminate.
  - intros at_ v Hv.
    destruct (Z_lt_ge_dec (r_at r0) at_) as [Hlo | Hlo];
      [destruct (Z_le_gt_dec at_ (r_at rl)) as [Hhi | Hhi] |].
    + rewrite (usage_inside_step ts d r0 rl at_ energy H0 Hl) in Hv by lia.
      destruct (reading ts d at_ energy) as [today |] eqn:Et; cbn [bind] in Hv;
        [| discriminate].
      destruct (add_days at_ (-1)) as [day_before |]; cbn [bind] in Hv;
        [| discriminate].
      destruct (reading ts d day_before energy) as [yesterday |];
        cbn [bind] in Hv; [| discriminate].
      destruct (reading_float ts d r0 rl at_ energy today H0 Hl) as [f ->];
        [lia | exact Et |].
      exact (sub_float f yesterday v Hv).
    + rewrite (usage_outside ts d r0 rl at_ energy H0 Hl) in Hv by lia.
      discriminate.
    + rewrite (usage_outside ts d r0 rl at_ energy H0 Hl) in Hv by lia.
      discriminate.
  - intros v Hv. rewrite annual_unfold in Hv.
    destruct (usage_dates d) as [ds |] eqn:Ed; cbn [bind] in Hv;
      [| discriminate].
    destruct (usage_dates_inv d r0 rl ds H0 Hl Ed) as [-> _].
    destruct (Z.to_nat (r_at rl - r_at r0 - 1)) as [| n]; cbn [days] in Hv.
    + rewrite getitem_nil in Hv. discriminate.
    + rewrite getitem_head in Hv. cbn [bind] in Hv.
      destruct (add_days (r_at r0 + 2) 365) as [end_ |] eqn:Ee;
        cbn [bind] in Hv; [| discriminate].
      apply add_days_inv in Ee as [-> _].
      destruct (reading ts d (r_at r0 + 2) energy) as [va |]; cbn [bind] in Hv;
        [| discriminate].
      destruct (reading ts d (r_at r0 + 2 + 365) energy) as [vb |] eqn:Eb;
        cbn [bind] in Hv; [| discriminate].
      destruct (reading_float ts d r0 rl (r_at r0 + 2 + 365) energy vb H0 Hl)
        as [f ->]; [lia | exact Eb |].
      exact (sub_float f va v Hv).
Qed.

Lemma interpolated_values_are_floats_witness :
  getitem (readings jan_feb) 0 = Ok (reading64 737425 1000 100)
  /\ getitem (readings jan_feb) (-1) = Ok (reading64 737456 1100 120)
  /\ forall at_ v, usage ts_utc jan_feb at_ Electricity = Ok v ->
                   exists f, v = Float f.
Proof.
  split; [reflexivity |]. split; [reflexivity |].
  exact (proj1 (proj2 (interpolated_values_are_floats binary64 ts_utc jan_feb
                         (reading64 737425 1000 100)
                         (reading64 737456 1100 120) Electricity
                         eq_refl eq_refl))).
Defined.

(** X13.  In binary64, in a store that keeps the invariants, where [ts]
    returns on the dates from the first reading's to the last reading's and
    ascends with them: with a reading on each of two days in a row, the
    electricity usage of the second day is the difference of the two meter
    values, with no rounding.  This holds for integers in ascending order
    from 0 to 2^53 - 1, where the earlier reading is the first of the store
    or follows a reading with a smaller or equal meter value. *)
Theorem daily_electricity_usage (ts : date -> result Z) (d : Data binary64)
  (r0 rl p r : Reading binary64) :
  store_invariant d ->
  getitem (readings d) 0 = Ok r0 ->
  getitem (readings d) (-1) = Ok rl ->
  increasing ts (r_at r0) (r_at rl) ->
  consecutive d p r ->
  r_at r = r_at p + 1 ->
  0 <= electricity p <= electricity r ->
  electricity r < 2 ^ 53 ->
  getitem (readings d) 0 = Ok p
  \/ (exists o, consecutive d o p /\ 0 <= electricity o <= electricity p) ->
  exists f : float,
    usage ts d (r_at r) Electricity = Ok (Float (A := binary64) f)
    /\ Binary64.eq_int f (electricity r - electricity p) = true.
Proof.
  intros Hinv H0 Hl Hts Hc Hday Hpr Hr Hp.
  destruct (store_invariant_ends d r0 rl Hinv H0 Hl)
    as ([Hmin _] & [_ Hmax] & _).
  destruct Hinv as (_ & Hasc & _).
  destruct (consecutive_inside d r0 rl p r Hasc H0 Hl Hc) as (H0p & Hlt & Hrl).
  exists (Binary64.float_of_int (electricity r - electricity p)).
  split; [| apply Binary64Facts.eq_int_float_of_int; lia].
  rewrite (usage_inside ts d r0 rl (r_at r) Electricity H0 Hl) by lia.
  destruct (reading_stored_timestamps ts d r0 rl p r Electricity
              Hasc H0 Hl Hts Hc) as (first & second & _ & _ & Hfs & ->).
  cbn [get].
  rewrite Binary64Facts.interpolate_int_at_second by lia.
  cbn [bind]. replace (r_at r - 1) with (r_at p) by lia.
  assert (Hsub : sub (Float (A := binary64)
                        (Binary64.float_of_int (electricity r)))
                     (Float (A := binary64)
                        (Binary64.float_of_int (electricity p)))
                 = Ok (Float (A := binary64)
                         (Binary64.float_of_int
                            (electricity r - electricity p)))).
  { unfold sub, binop. cbn [to_float bind fsub binary64].
    now rewrite Binary64More.float_of_int_sub by lia. }
  destruct Hp as [Hfirst | (o & Hco & Hop)].
  - rewrite (reading_first ts d p Electricity Hasc Hfirst). cbn [bind get].
    unfold sub, binop. cbn [to_float bind of_int binary64].
    rewrite Binary64Facts.int_to_float_small by lia. cbn [bind fsub binary64].
    now rewrite Binary64More.float_of_int_sub by lia.
  - destruct (reading_stored_timestamps ts d r0 rl o p Electricity
                Hasc H0 Hl Hts Hco) as (first' & second' & _ & _ & Hfs' & ->).
    cbn [get].
    rewrite Binary64Facts.interpolate_int_at_second by lia.
    cbn [bind]. exact Hsub.
Qed.

Lemma daily_electricity_usage_witness :
  store_invariant daily
  /\ getitem (readings daily) 0 = Ok (reading64 737425 1000 100)
  /\ getitem (readings daily) (-1) = Ok (reading64 737427 1007 103)
  /\ increasing ts_utc 737425 737427
  /\ consecutive daily (reading64 737426 1003 101) (reading64 737427 1007 103)
  /\ 737427 = 737426 + 1
  /\ 0 <= 1003 <= 1007
  /\ 1007 < 2 ^ 53
  /\ (exists o, consecutive daily o (reading64 737426 1003 101)
                /\ 0 <= electricity o <= 1003)
  /\ exists f : float,
       usage ts_utc daily 737427 Electricity = Ok (Float (A := binary64) f)
       /\ Binary64.eq_int f (1007 - 1003) = true.
Proof.
  assert (Hinv : store_invariant daily)
    by (split; [discriminate | split; reflexivity]).
  assert (Hts : increasing ts_utc 737425 737427)
    by (apply ts_utc_increasing; reflexivity).
  assert (Hc : consecutive daily (reading64 737426 1003 101)
                 (reading64 737427 1007 103))
    by (exists [reading64 737425 1000 100], []; reflexivity).
  assert (Hday : 737427 = 737426 + 1) by reflexivity.
  assert (Hpr : 0 <= 1003 <= 1007) by (split; discriminate).
  assert (Hr : 1007 < 2 ^ 53) by reflexivity.
  assert (Ho : exists o, consecutive daily o (reading64 737426 1003 101)
                         /\ 0 <= electricity o <= 1003).
  { exists (reading64 737425 1000 100). split.
    - exists [], [reading64 737427 1007 103]. reflexivity.
    - split; discriminate. }
  split; [exact Hinv |]. split; [reflexivity |]. split; [reflexivity |].
  split; [exact Hts |].
  split; [exact Hc |]. split; [exact Hday |]. split; [exact Hpr |].
  split; [exact Hr |]. split; [exact Ho |].
  exact (daily_electricity_usage ts_utc daily
           (reading64 737425 1000 100) (reading64 737427 1007 103)
           (reading64 737426 1003 101) (reading64 737427 1007 103)
           Hinv eq_refl eq_refl Hts Hc Hday Hpr Hr (or_intror Ho)).
Defined.



(** X15.  [interpolate] raises [ZeroDivisionError] exactly when its two
    timestamps are equal, whatever the values; any other failure is the
    overflow of a conversion. *)
Theorem interpolate_zero_division (A : Arith) (first second current : Z)
  (v0 v1 : num A) :
  (interpolate first second current v0 v1 = Err ZeroDivisionError
   <-> second = first)
  /\ (forall e, interpolate first second current v0 v1 = Err e ->
                e = ZeroDivisionError \/ e = OverflowError).
Proof.
  split; [split |].
  - intros H. destruct (Z.eq_dec second first) as [E | Hne]; [exact E |].
    pose proof (interpolate_error first second current v0 v1 _ Hne H).
    discriminate.
  - intros ->. apply interpolate_same.
  - intros e H. destruct (Z.eq_dec second first) as [-> | Hne].
    + rewrite interpolate_same in H. injection H as <-. now left.
    + right. exact (interpolate_error first second current v0 v1 e Hne H).
Qed.

